(** * Verification of the motor control supervisor, [src/motorctl.c]

    The supervisor sits above the commutation driver.  A periodic worker
    thread filters the supply telemetry, runs the control law of the
    current mode, limits the slope of the duty cycle and commands the
    driver; the public setters and getters share one record with it.

    Conventions of the embedding:
    - C [float] values are exact rationals extended with the IEEE
      specials (the two infinities and NaN).  Rounding, overflow to
      infinity and the sign of zero are not represented; the constants
      of [configure] are the binary32 numbers that the code stores.
      What is proved about arithmetic results is therefore stated
      through the operations and comparisons of the code, not through
      the exact value of a sum, product or quotient.
    - C integers are [Z]; the places where the C types truncate are
      written out with [uint32] and [uint64].  What C leaves undefined
      (division by zero, signed overflow) and a failed [assert] are
      results of their own, see [outcome].
    - Every public function and every iteration of the worker runs with
      [_mutex] held, so each is one atomic step on the shared record.
    - The driver ([motor/motor.h]) is the environment: what its getters
      return is an input of the step, what is commanded is an output. *)

From Stdlib Require Import ZArith QArith Qabs List Bool Lia Lqa.
Import ListNotations.

Open Scope Z_scope.

(** ** C [float] *)

Inductive cfloat : Type :=
| FNum (q : Q)
| FInf (neg : bool)
| FNaN.

Definition Qlt_bool (a b : Q) : bool := negb (Qle_bool b a).

Definition fopp (x : cfloat) : cfloat :=
  match x with
  | FNum q => FNum (- q)
  | FInf s => FInf (negb s)
  | FNaN => FNaN
  end.

Definition fabs (x : cfloat) : cfloat :=
  match x with
  | FNum q => FNum (Qabs q)
  | FInf _ => FInf false
  | FNaN => FNaN
  end.

Definition fadd (x y : cfloat) : cfloat :=
  match x, y with
  | FNaN, _ | _, FNaN => FNaN
  | FNum a, FNum b => FNum (a + b)
  | FNum _, FInf s | FInf s, FNum _ => FInf s
  | FInf s, FInf t => if Bool.eqb s t then FInf s else FNaN
  end.

Definition fsub (x y : cfloat) : cfloat := fadd x (fopp y).

Definition fmul (x y : cfloat) : cfloat :=
  match x, y with
  | FNaN, _ | _, FNaN => FNaN
  | FNum a, FNum b => FNum (a * b)
  | FNum a, FInf s | FInf s, FNum a =>
      if Qeq_bool a 0 then FNaN else FInf (xorb s (Qlt_bool a 0))
  | FInf s, FInf t => FInf (xorb s t)
  end.

(** A zero divisor counts as +0: [x / 0] is the infinity of the sign of
    [x], and [0 / 0] is NaN. *)
Definition fdiv (x y : cfloat) : cfloat :=
  match x, y with
  | FNaN, _ | _, FNaN => FNaN
  | FNum a, FNum b =>
      if Qeq_bool b 0
      then (if Qeq_bool a 0 then FNaN else FInf (Qlt_bool a 0))
      else FNum (a / b)
  | FNum _, FInf _ => FNum 0
  | FInf s, FNum b => FInf (xorb s (Qlt_bool b 0))
  | FInf _, FInf _ => FNaN
  end.

(** Comparisons are false as soon as one side is NaN. *)
Definition flt (x y : cfloat) : bool :=
  match x, y with
  | FNaN, _ | _, FNaN => false
  | FNum a, FNum b => Qlt_bool a b
  | FNum _, FInf s => negb s
  | FInf s, FNum _ => s
  | FInf s, FInf t => s && negb t
  end.

Definition fle (x y : cfloat) : bool :=
  match x, y with
  | FNaN, _ | _, FNaN => false
  | FNum a, FNum b => Qle_bool a b
  | FNum _, FInf s => negb s
  | FInf s, FNum _ => s
  | FInf s, FInf t => s || negb t
  end.

Definition fgt (x y : cfloat) : bool := flt y x.
Definition fge (x y : cfloat) : bool := fle y x.

Definition isfinite (x : cfloat) : bool :=
  match x with FNum _ => true | _ => false end.

Definition isnan (x : cfloat) : bool :=
  match x with FNaN => true | _ => false end.

(** Conversion of an integer to [float]. *)
Definition of_int (z : Z) : cfloat := FNum (inject_Z z).

(** Numeric equality of two floats, up to the representation of the
    rational. *)
Definition feq (x y : cfloat) : Prop :=
  match x, y with
  | FNum a, FNum b => a == b
  | FInf s, FInf t => s = t
  | _, _ => False
  end.

(** [x] is a number of the closed interval [[lo, hi]]. *)
Definition in_range (lo hi : Q) (x : cfloat) : Prop :=
  match x with
  | FNum q => (lo <= q /\ q <= hi)%Q
  | _ => False
  end.

(** ** C integers and faults *)

Definition uint32 (z : Z) : Z := z mod 2 ^ 32.
Definition uint64 (z : Z) : Z := z mod 2 ^ 64.
Definition INT_MAX : Z := 2 ^ 31 - 1.

Inductive fault : Type :=
| AssertionFailed
| SignedOverflow
| DivisionByZero.

Inductive outcome (A : Type) : Type :=
| Ok (a : A)
| Fault (f : fault).

Arguments Ok {A} a.
Arguments Fault {A} f.

Definition bind {A B : Type} (m : outcome A) (k : A -> outcome B) : outcome B :=
  match m with
  | Ok a => k a
  | Fault f => Fault f
  end.

Notation "x <- m ;; k" := (bind m (fun x => k))
  (at level 61, m at next level, right associativity).

(** ** The headers that [motorctl.c] includes *)

(** Modelled from the spec: [motorctl.h] is not part of the sources.
    The mode is one of OpenLoop and TargetRpm. *)
Inductive motorctl_mode : Type :=
| MOTORCTL_MODE_OPENLOOP
| MOTORCTL_MODE_RPM.

(** Modelled from the spec: [motorctl.h] is not part of the sources.
    The limit mask is a set of the two flags RpmLimit and AccelLimit;
    they are two distinct bits of an [int]. *)
Definition MOTORCTL_LIMIT_RPM : Z := 1.
Definition MOTORCTL_LIMIT_ACCEL : Z := 2.

(** Modelled from the spec: [motor/motor.h] is not part of the sources.
    The driver is idle, in its own spin-up sequence, or running. *)
Inductive motor_state : Type :=
| MOTOR_STATE_IDLE
| MOTOR_STATE_STARTING
| MOTOR_STATE_RUNNING.

(** Modelled from the spec: [motor/timer.h] is not part of the sources.
    The timer counts units of 100 ns; the comment above
    [comm_period_to_rpm] takes 10000000 of them per second. *)
Definition HNSEC_PER_SEC : Z := 10000000.

Definition MIN_VALID_INPUT_VOLTAGE : cfloat := FNum 4.
Definition MAX_VALID_INPUT_VOLTAGE : cfloat := FNum 40.

(** What the worker and [motorctl_init] ask of the driver. *)
Inductive motor_cmd : Type :=
| MotorStop
| MotorStart (min_dc max_dc : cfloat) (rev : bool)
| MotorSetDutyCycle (dc : cfloat).

(** What the driver's getters return during one iteration of the worker.
    [motor_get_state] is called by [update_control] and once more by
    [update_control_non_running]; the driver runs from interrupts and may
    have changed in between, so both answers are inputs. *)
Record driver : Type := {
  drv_state : motor_state;
  drv_state_again : motor_state;
  drv_comm_period : Z;
  drv_voltage : cfloat;
  drv_current : cfloat
}.

(** ** [struct state] and [struct params] *)

Record state : Type := {
  mode : motorctl_mode;
  limit_mask : Z;
  dc_actual : cfloat;
  dc_openloop_setpoint : cfloat;
  rpm_setpoint : Z;
  input_voltage : cfloat;
  input_current : cfloat
}.

Record params : Type := {
  spinup_voltage : cfloat;
  dc_step_max : cfloat;
  dc_slope : cfloat;
  voltage_current_lowpass_tau : cfloat;
  poles : Z;
  reverse : bool;
  comm_period_limit : Z;
  rpm_max : Z;
  rpm_min : Z
}.

Definition set_mode (m : motorctl_mode) (s : state) : state :=
  {| mode := m; limit_mask := limit_mask s; dc_actual := dc_actual s;
     dc_openloop_setpoint := dc_openloop_setpoint s;
     rpm_setpoint := rpm_setpoint s;
     input_voltage := input_voltage s; input_current := input_current s |}.

Definition set_limit_mask (m : Z) (s : state) : state :=
  {| mode := mode s; limit_mask := m; dc_actual := dc_actual s;
     dc_openloop_setpoint := dc_openloop_setpoint s;
     rpm_setpoint := rpm_setpoint s;
     input_voltage := input_voltage s; input_current := input_current s |}.

Definition set_dc_actual (x : cfloat) (s : state) : state :=
  {| mode := mode s; limit_mask := limit_mask s; dc_actual := x;
     dc_openloop_setpoint := dc_openloop_setpoint s;
     rpm_setpoint := rpm_setpoint s;
     input_voltage := input_voltage s; input_current := input_current s |}.

Definition set_dc_openloop_setpoint (x : cfloat) (s : state) : state :=
  {| mode := mode s; limit_mask := limit_mask s; dc_actual := dc_actual s;
     dc_openloop_setpoint := x;
     rpm_setpoint := rpm_setpoint s;
     input_voltage := input_voltage s; input_current := input_current s |}.

Definition set_rpm_setpoint (r : Z) (s : state) : state :=
  {| mode := mode s; limit_mask := limit_mask s; dc_actual := dc_actual s;
     dc_openloop_setpoint := dc_openloop_setpoint s;
     rpm_setpoint := r;
     input_voltage := input_voltage s; input_current := input_current s |}.

Definition set_input (v i : cfloat) (s : state) : state :=
  {| mode := mode s; limit_mask := limit_mask s; dc_actual := dc_actual s;
     dc_openloop_setpoint := dc_openloop_setpoint s;
     rpm_setpoint := rpm_setpoint s;
     input_voltage := v; input_current := i |}.

(** ** Conversion of a commutation period to RPM *)

Definition comm_period_to_rpm (p : params) (comm_period_hnsec : Z) : outcome Z :=
  if poles p <=? 0 then Fault AssertionFailed
  else if INT_MAX <? poles p * 6 then Fault SignedOverflow
  else
    let x := uint32 (uint64 (120 * uint64 HNSEC_PER_SEC) / uint64 (poles p * 6)) in
    if comm_period_hnsec =? 0 then Fault DivisionByZero
    else Ok (x / comm_period_hnsec).

(** ** Startup configuration *)

(** The constant 0.2 once stored in a [float]: the nearest binary32
    number, 13421773 * 2^-26.  The other constants of [configure] (2.0,
    1.0, 1 / 0.5) are binary32 numbers as they stand. *)
Definition FLT_0_2 : cfloat := FNum (13421773 # 67108864).

Definition configure (limit_comm_period : Z) (p : params) : outcome params :=
  let p1 :=
    {| spinup_voltage := FNum 2;
       dc_step_max := FLT_0_2;
       dc_slope := FNum 1;
       voltage_current_lowpass_tau := fdiv (FNum 1) (FNum (1 # 2));
       poles := 14;
       reverse := false;
       comm_period_limit := limit_comm_period;
       rpm_max := rpm_max p;
       rpm_min := rpm_min p |} in
  rpm <- comm_period_to_rpm p1 (comm_period_limit p1) ;;
  Ok {| spinup_voltage := spinup_voltage p1;
        dc_step_max := dc_step_max p1;
        dc_slope := dc_slope p1;
        voltage_current_lowpass_tau := voltage_current_lowpass_tau p1;
        poles := poles p1;
        reverse := reverse p1;
        comm_period_limit := comm_period_limit p1;
        rpm_max := rpm;
        rpm_min := 500 |}.

(** ** Telemetry filters *)

Definition lowpass (xold xnew tau dt : cfloat) : cfloat :=
  fdiv (fadd (fmul dt xnew) (fmul tau xold)) (fadd dt tau).

Definition init_filters (voltage current : cfloat) (s : state) : state :=
  set_input voltage current s.

Definition update_filters (p : params) (dt : cfloat) (d : driver) (s : state) : state :=
  let voltage := drv_voltage d in
  let current := drv_current d in
  set_input
    (lowpass (input_voltage s) voltage (voltage_current_lowpass_tau p) dt)
    (lowpass (input_current s) current (voltage_current_lowpass_tau p) dt)
    s.

(** ** The control step *)

Definition stop (s : state) : state * list motor_cmd :=
  (set_rpm_setpoint 0
     (set_dc_openloop_setpoint (FNum 0)
        (set_dc_actual (FNum 0)
           (set_limit_mask 0 s))),
   [MotorStop]).

Definition mode_eqb (a b : motorctl_mode) : bool :=
  match a, b with
  | MOTORCTL_MODE_OPENLOOP, MOTORCTL_MODE_OPENLOOP => true
  | MOTORCTL_MODE_RPM, MOTORCTL_MODE_RPM => true
  | _, _ => false
  end.

Definition update_control_non_running (p : params) (d : driver) (s : state)
  : state * list motor_cmd :=
  match drv_state_again d with
  | MOTOR_STATE_STARTING => (s, [])
  | _ =>
      let spinup_dc := fdiv (spinup_voltage p) (input_voltage s) in
      let s1 := set_limit_mask 0 (set_dc_actual spinup_dc s) in
      let need_start :=
        (mode_eqb (mode s1) MOTORCTL_MODE_OPENLOOP
           && fge (dc_openloop_setpoint s1) spinup_dc)
        || (mode_eqb (mode s1) MOTORCTL_MODE_RPM
              && (rpm_min p <=? rpm_setpoint s1)) in
      (s1, if need_start then [MotorStart spinup_dc spinup_dc (reverse p)] else [])
  end.

(** The "simple P controller" of [update_control_open_loop]: the duty
    cycle computed from the live period [cp] once it is below the limit. *)
Definition throttle_back (limit cp : Z) : cfloat :=
  let c1 := of_int limit in
  let c0 := of_int (limit / 2) in
  fdiv (fsub (of_int cp) c0) (fsub c1 c0).

(** The tail of [update_control_open_loop], reached when the P
    controller does not take over. *)
Definition open_loop_setpoint (s : state) : state * cfloat :=
  let s1 := set_limit_mask (Z.land (limit_mask s) (Z.lnot MOTORCTL_LIMIT_RPM)) s in
  if fgt (dc_openloop_setpoint s1) (FNum 0)
  then (s1, dc_openloop_setpoint s1)
  else (s1, FNaN).

Definition update_control_open_loop (p : params) (d : driver) (s : state)
  : state * cfloat :=
  let cp := drv_comm_period d in
  if cp =? 0 then (s, FNaN)
  else if cp <? comm_period_limit p then
    let dc := throttle_back (comm_period_limit p) cp in
    if flt dc (dc_openloop_setpoint s)
    then (set_limit_mask (Z.lor (limit_mask s) MOTORCTL_LIMIT_RPM) s, dc)
    else open_loop_setpoint s
  else open_loop_setpoint s.

Definition update_control_rpm (dt : cfloat) : cfloat := FNaN.

(** "Primary control logic; can return NAN to stop the motor". *)
Definition primary_control (p : params) (dt : cfloat) (d : driver) (s : state)
  : state * cfloat :=
  match mode s with
  | MOTORCTL_MODE_OPENLOOP => update_control_open_loop p d s
  | MOTORCTL_MODE_RPM => (s, update_control_rpm dt)
  end.

(** "Duty cycle slope control", followed by the update of [dc_actual]
    and the command to the driver. *)
Definition slope_control (p : params) (dt : cfloat) (new_duty_cycle : cfloat)
    (s : state) : state * list motor_cmd :=
  let '(s1, new_duty_cycle) :=
    if fgt (fabs (fsub new_duty_cycle (dc_actual s))) (dc_step_max p) then
      let step := fmul (dc_slope p) dt in
      let step := if flt new_duty_cycle (dc_actual s) then fopp step else step in
      (set_limit_mask (Z.lor (limit_mask s) MOTORCTL_LIMIT_ACCEL) s,
       fadd (dc_actual s) step)
    else
      (set_limit_mask (Z.land (limit_mask s) (Z.lnot MOTORCTL_LIMIT_ACCEL)) s,
       new_duty_cycle) in
  let s2 := set_dc_actual new_duty_cycle s1 in
  (s2, [MotorSetDutyCycle (dc_actual s2)]).

Definition update_control (p : params) (dt : cfloat) (d : driver) (s : state)
  : state * list motor_cmd :=
  match drv_state d with
  | MOTOR_STATE_RUNNING =>
      let '(s1, new_duty_cycle) := primary_control p dt d s in
      if negb (isfinite new_duty_cycle) then stop s1
      else slope_control p dt new_duty_cycle s1
  | _ => update_control_non_running p d s
  end.

(** ** The worker thread *)

(** The local variable of [control_thread] that lives across
    iterations. *)
Record worker : Type := { timestamp_hnsec : Z }.

(** One iteration of the loop of [control_thread], woken at the timer
    reading [now]. *)
Definition elapsed (new_timestamp_hnsec : Z) (w : worker) : cfloat :=
  fdiv (of_int (uint64 (new_timestamp_hnsec - timestamp_hnsec w)))
       (of_int HNSEC_PER_SEC).

Definition control_thread_step (p : params) (now : Z) (d : driver)
    (w : worker) (s : state) : worker * state * list motor_cmd :=
  let new_timestamp_hnsec := now in
  let dt := elapsed new_timestamp_hnsec w in
  let s1 := update_filters p dt d s in
  let '(s2, cmds) := update_control p dt d s1 in
  ({| timestamp_hnsec := new_timestamp_hnsec |}, s2, cmds).

(** ** The process: parameters, shared record, worker *)

Record sys : Type := {
  sys_params : params;
  sys_state : state;
  sys_sync_init : bool;
  sys_worker : option worker
}.

(** What [motorctl_init] reads from its collaborators: the status of
    [motor_init], the limit period of the driver, the telemetry sample
    that seeds the filters, and the timer reading taken by the new
    thread. *)
Record init_env : Type := {
  env_motor_init : Z;
  env_limit_comm_period : Z;
  env_voltage : cfloat;
  env_current : cfloat;
  env_timer : Z
}.

Definition motorctl_init (e : init_env) (y : sys) : outcome (Z * sys) :=
  let ret := env_motor_init e in
  if negb (ret =? 0) then Ok (ret, y)
  else
    p <- configure (env_limit_comm_period e) (sys_params y) ;;
    let s := init_filters (env_voltage e) (env_current e) (sys_state y) in
    if flt (input_voltage s) MIN_VALID_INPUT_VOLTAGE
       || fgt (input_voltage s) MAX_VALID_INPUT_VOLTAGE
    then
      Ok (-1, {| sys_params := p; sys_state := s; sys_sync_init := true;
                 sys_worker := sys_worker y |})
    else
      Ok (0, {| sys_params := p; sys_state := s; sys_sync_init := true;
                sys_worker := Some {| timestamp_hnsec := env_timer e |} |}).

(** ** Public setters and getters *)

Definition motorctl_set_duty_cycle (dc : cfloat) (s : state) : state :=
  let s1 := set_mode MOTORCTL_MODE_OPENLOOP s in
  let dc := if flt dc (FNum 0) then FNum 0 else dc in
  let dc := if fgt dc (FNum 1) then FNum 1 else dc in
  set_dc_openloop_setpoint dc s1.

Definition motorctl_set_rpm (p : params) (rpm : Z) (s : state) : state :=
  let s1 := set_mode MOTORCTL_MODE_RPM s in
  let rpm := if rpm_max p <? rpm then rpm_max p else rpm in
  set_rpm_setpoint rpm s1.

Definition motorctl_get_duty_cycle (s : state) : cfloat := dc_actual s.

Definition motorctl_get_rpm (p : params) (d : driver) : outcome Z :=
  let cp := drv_comm_period d in
  comm_period_to_rpm p cp.

Definition motorctl_get_mode (s : state) : motorctl_mode := mode s.

Definition motorctl_is_running (d : driver) : bool :=
  match drv_state d with
  | MOTOR_STATE_IDLE => false
  | _ => true
  end.

Definition motorctl_get_limit_mask (s : state) : Z := limit_mask s.

(** The two out-parameters may be null; [out_voltage] and [out_current]
    tell which is not, and the result is what gets written. *)
Definition motorctl_get_input_voltage_current (out_voltage out_current : bool)
    (s : state) : option cfloat * option cfloat :=
  (if out_voltage then Some (input_voltage s) else None,
   if out_current then Some (input_current s) else None).

(** ** Sequences of operations *)

Inductive op : Type :=
| OpTick (now : Z) (d : driver)
| OpSetDutyCycle (dc : cfloat)
| OpSetRpm (rpm : Z)
| OpStop.

Definition with_state (y : sys) (s : state) : sys :=
  {| sys_params := sys_params y; sys_state := s;
     sys_sync_init := sys_sync_init y; sys_worker := sys_worker y |}.

Definition step (o : op) (y : sys) : sys * list motor_cmd :=
  match o with
  | OpTick now d =>
      match sys_worker y with
      | None => (y, [])
      | Some w =>
          let '(w1, s1, cmds) :=
            control_thread_step (sys_params y) now d w (sys_state y) in
          ({| sys_params := sys_params y; sys_state := s1;
              sys_sync_init := sys_sync_init y; sys_worker := Some w1 |}, cmds)
      end
  | OpSetDutyCycle dc =>
      (with_state y (motorctl_set_duty_cycle dc (sys_state y)), [])
  | OpSetRpm rpm =>
      (with_state y (motorctl_set_rpm (sys_params y) rpm (sys_state y)), [])
  | OpStop =>
      let '(s1, cmds) := stop (sys_state y) in (with_state y s1, cmds)
  end.

Fixpoint run (ops : list op) (y : sys) : sys * list motor_cmd :=
  match ops with
  | [] => (y, [])
  | o :: rest =>
      let '(y1, c1) := step o y in
      let '(y2, c2) := run rest y1 in
      (y2, c1 ++ c2)
  end.

(** The statically allocated records before [motorctl_init]: all zero. *)
Definition boot_state : state :=
  {| mode := MOTORCTL_MODE_OPENLOOP; limit_mask := 0;
     dc_actual := FNum 0; dc_openloop_setpoint := FNum 0; rpm_setpoint := 0;
     input_voltage := FNum 0; input_current := FNum 0 |}.

Definition boot_params : params :=
  {| spinup_voltage := FNum 0; dc_step_max := FNum 0; dc_slope := FNum 0;
     voltage_current_lowpass_tau := FNum 0; poles := 0; reverse := false;
     comm_period_limit := 0; rpm_max := 0; rpm_min := 0 |}.

Definition boot : sys :=
  {| sys_params := boot_params; sys_state := boot_state;
     sys_sync_init := false; sys_worker := None |}.

(** * Vocabulary of the properties *)

(** The two tests of [motorctl_set_duty_cycle], on any float. *)
Definition clamp01 (dc : cfloat) : cfloat :=
  let dc := if flt dc (FNum 0) then FNum 0 else dc in
  if fgt dc (FNum 1) then FNum 1 else dc.

(** The seeded voltage is below the valid band or above it. *)
Definition voltage_out_of_band (v : cfloat) : Prop :=
  flt v MIN_VALID_INPUT_VOLTAGE = true \/ fgt v MAX_VALID_INPUT_VOLTAGE = true.

(** The setpoints are within their bounds. *)
Definition setpoints_ok (y : sys) : Prop :=
  in_range 0 1 (dc_openloop_setpoint (sys_state y))
  /\ rpm_setpoint (sys_state y) <= rpm_max (sys_params y).

(** The invariant of the data model as the spec words it: [dc_actual]
    too is within [0,1]. *)
Definition invariant_as_claimed (y : sys) : Prop :=
  in_range 0 1 (dc_actual (sys_state y)) /\ setpoints_ok y.

(** The duty cycle passed to the setter is a number or an infinity. *)
Definition numeric_op (o : op) : Prop :=
  match o with
  | OpSetDutyCycle dc => isnan dc = false
  | _ => True
  end.

(** The limit mask holds no bit besides the two flags. *)
Definition mask_ok (m : Z) : Prop := 0 <= m <= 3.

(** The voltage passes the test of [motorctl_init]: it compares neither
    below the valid band nor above it. *)
Definition voltage_in_band (v : cfloat) : Prop :=
  flt v MIN_VALID_INPUT_VOLTAGE = false /\ fgt v MAX_VALID_INPUT_VOLTAGE = false.

(** ** Concrete parameters, states and driver readings *)

(** The parameters that [configure] computes for a limit period of
    1000. *)
Definition sample_params : params :=
  {| spinup_voltage := FNum 2; dc_step_max := FLT_0_2; dc_slope := FNum 1;
     voltage_current_lowpass_tau := FNum 2; poles := 14; reverse := false;
     comm_period_limit := 1000; rpm_max := 14285; rpm_min := 500 |}.

(** A start with the supply at 12 V and a limit period of 1000, and the
    process it leaves. *)
Definition good_env : init_env :=
  {| env_motor_init := 0; env_limit_comm_period := 1000;
     env_voltage := FNum 12; env_current := FNum 0; env_timer := 0 |}.

Definition started : sys :=
  {| sys_params := sample_params;
     sys_state := set_input (FNum 12) (FNum 0) boot_state;
     sys_sync_init := true;
     sys_worker := Some {| timestamp_hnsec := 0 |} |}.

(** The supply reads 4 V at [motorctl_init], which is within the band. *)
Definition low_env : init_env :=
  {| env_motor_init := 0; env_limit_comm_period := 1000;
     env_voltage := FNum 4; env_current := FNum 0; env_timer := 0 |}.

Definition low_started : sys :=
  {| sys_params := sample_params;
     sys_state := set_input (FNum 4) (FNum 0) boot_state;
     sys_sync_init := true;
     sys_worker := Some {| timestamp_hnsec := 0 |} |}.

(** A start on which the voltage sample is NaN, with the process it
    leaves, and one on which the driver reports a limit period of 0
    while the supply reads 0 V. *)
Definition nan_env : init_env :=
  {| env_motor_init := 0; env_limit_comm_period := 1000;
     env_voltage := FNaN; env_current := FNum 0; env_timer := 0 |}.

Definition nan_started : sys :=
  {| sys_params := sample_params;
     sys_state := set_input FNaN (FNum 0) boot_state;
     sys_sync_init := true;
     sys_worker := Some {| timestamp_hnsec := 0 |} |}.

Definition no_limit_env : init_env :=
  {| env_motor_init := 0; env_limit_comm_period := 0;
     env_voltage := FNum 0; env_current := FNum 0; env_timer := 0 |}.

(** The state of a motor spinning in open loop at 30 %, RPM limit
    flagged. *)
Definition spinning_state : state :=
  {| mode := MOTORCTL_MODE_OPENLOOP; limit_mask := MOTORCTL_LIMIT_RPM;
     dc_actual := FNum (3 # 10); dc_openloop_setpoint := FNum (3 # 10);
     rpm_setpoint := 0; input_voltage := FNum 12; input_current := FNum 1 |}.

(** The motor runs with commutation period [cp]. *)
Definition running_driver (cp : Z) : driver :=
  {| drv_state := MOTOR_STATE_RUNNING; drv_state_again := MOTOR_STATE_RUNNING;
     drv_comm_period := cp; drv_voltage := FNum 12; drv_current := FNum 1 |}.

(** A driver that reports the motor running with a commutation period
    of 0. *)
Definition stalled_driver : driver :=
  {| drv_state := MOTOR_STATE_RUNNING; drv_state_again := MOTOR_STATE_RUNNING;
     drv_comm_period := 0; drv_voltage := FNum 12; drv_current := FNum 1 |}.

(** The motor is idle, or in the spin-up sequence of the driver. *)
Definition idle_driver : driver :=
  {| drv_state := MOTOR_STATE_IDLE; drv_state_again := MOTOR_STATE_IDLE;
     drv_comm_period := 0; drv_voltage := FNum 12; drv_current := FNum 0 |}.

Definition starting_driver : driver :=
  {| drv_state := MOTOR_STATE_STARTING; drv_state_again := MOTOR_STATE_STARTING;
     drv_comm_period := 0; drv_voltage := FNum 12; drv_current := FNum 0 |}.

(** The motor is idle and the supply reads 0 V. *)
Definition dead_supply_driver : driver :=
  {| drv_state := MOTOR_STATE_IDLE; drv_state_again := MOTOR_STATE_IDLE;
     drv_comm_period := 0; drv_voltage := FNum 0; drv_current := FNum 0 |}.

(** * Properties *)

(** ** Floats *)

Lemma Qlt_bool_iff (a b : Q) : Qlt_bool a b = true <-> (a < b)%Q.
Proof.
  unfold Qlt_bool. rewrite negb_true_iff. split.
  - intros H. apply Qnot_le_lt. intros Hle.
    apply Qle_bool_iff in Hle. congruence.
  - intros H. destruct (Qle_bool b a) eqn:E; [|reflexivity].
    apply Qle_bool_iff in E. exfalso. exact (Qlt_not_le _ _ H E).
Qed.

Lemma Qlt_bool_false_iff (a b : Q) : Qlt_bool a b = false <-> (b <= a)%Q.
Proof.
  unfold Qlt_bool. rewrite negb_false_iff. apply Qle_bool_iff.
Qed.

Lemma zero_in_unit : in_range 0 1 (FNum 0).
Proof. split; [apply Qle_refl | discriminate]. Qed.

Lemma clamp01_in_range (dc : cfloat) :
  isnan dc = false -> in_range 0 1 (clamp01 dc).
Proof.
  unfold clamp01. destruct dc as [q | [|] |]; simpl; intros Hn;
    try discriminate.
  - destruct (Qlt_bool q 0) eqn:E0; simpl.
    + split; apply Qle_refl || discriminate.
    + apply Qlt_bool_false_iff in E0.
      destruct (Qlt_bool 1 q) eqn:E1; simpl.
      * split; [discriminate | apply Qle_refl].
      * apply Qlt_bool_false_iff in E1. now split.
  - split; apply Qle_refl || discriminate.
  - split; [discriminate | apply Qle_refl].
Qed.

(** ** Setters *)

Lemma set_duty_cycle_fields (dc : cfloat) (s : state) :
  motorctl_set_duty_cycle dc s =
  {| mode := MOTORCTL_MODE_OPENLOOP; limit_mask := limit_mask s;
     dc_actual := dc_actual s; dc_openloop_setpoint := clamp01 dc;
     rpm_setpoint := rpm_setpoint s;
     input_voltage := input_voltage s; input_current := input_current s |}.
Proof. reflexivity. Qed.

Lemma set_rpm_fields (p : params) (rpm : Z) (s : state) :
  motorctl_set_rpm p rpm s =
  {| mode := MOTORCTL_MODE_RPM; limit_mask := limit_mask s;
     dc_actual := dc_actual s;
     dc_openloop_setpoint := dc_openloop_setpoint s;
     rpm_setpoint := Z.min rpm (rpm_max p);
     input_voltage := input_voltage s; input_current := input_current s |}.
Proof.
  unfold motorctl_set_rpm, set_rpm_setpoint, set_mode; simpl.
  destruct (Z.ltb_spec (rpm_max p) rpm); f_equal; lia.
Qed.

(** The setters on every argument.  [motorctl_set_duty_cycle] switches
    to the open-loop mode and stores its argument clamped to [0,1]: an
    argument below 0 is stored as 0, one above 1 (the positive infinity
    too) as 1, one in between as it is, so that every argument that is
    not NaN ends in [0,1]; NaN compares false with both bounds and is
    the one value stored unclamped.  [motorctl_set_rpm] switches to the RPM mode and stores
    its argument clamped to [0, rpm_max]: an argument above [rpm_max]
    is stored as exactly [rpm_max], any other unchanged. *)
Theorem setters_clamp_and_switch_mode :
  forall (p : params) (s : state) (dc : cfloat) (rpm : Z),
    (mode (motorctl_set_duty_cycle dc s) = MOTORCTL_MODE_OPENLOOP
     /\ (flt dc (FNum 0) = true ->
         dc_openloop_setpoint (motorctl_set_duty_cycle dc s) = FNum 0)
     /\ (fgt dc (FNum 1) = true ->
         dc_openloop_setpoint (motorctl_set_duty_cycle dc s) = FNum 1)
     /\ (flt dc (FNum 0) = false -> fgt dc (FNum 1) = false ->
         dc_openloop_setpoint (motorctl_set_duty_cycle dc s) = dc)
     /\ (isnan dc = false ->
         in_range 0 1 (dc_openloop_setpoint (motorctl_set_duty_cycle dc s))))
    /\
    (mode (motorctl_set_rpm p rpm s) = MOTORCTL_MODE_RPM
     /\ (rpm_max p < rpm -> rpm_setpoint (motorctl_set_rpm p rpm s) = rpm_max p)
     /\ (rpm <= rpm_max p -> rpm_setpoint (motorctl_set_rpm p rpm s) = rpm)
     /\ rpm_setpoint (motorctl_set_rpm p rpm s) <= rpm_max p
     /\ (0 <= rpm -> 0 <= rpm_max p ->
         0 <= rpm_setpoint (motorctl_set_rpm p rpm s))).
Proof.
  intros p s dc rpm. split.
  - rewrite set_duty_cycle_fields; cbn [mode dc_openloop_setpoint].
    split; [reflexivity|].
    split; [|split; [|split]].
    + intros H. unfold clamp01. rewrite H. reflexivity.
    + intros H. unfold clamp01.
      destruct (flt dc (FNum 0)) eqn:E; [|now rewrite H].
      destruct dc as [q | [|] |]; simpl in *; try discriminate.
      apply Qlt_bool_iff in E, H. exfalso.
      apply (Qlt_irrefl 0). apply Qlt_trans with 1%Q; [reflexivity|].
      now apply Qlt_trans with q.
    + intros H0 H1. unfold clamp01. rewrite H0, H1. reflexivity.
    + apply clamp01_in_range.
  - rewrite set_rpm_fields; simpl. repeat split; lia.
Qed.

(** The theorem at 1.5, -0.25, 0.3 and at 5000 RPM over a ceiling of
    3000. *)
Lemma setters_clamp_and_switch_mode_witness :
  dc_openloop_setpoint (motorctl_set_duty_cycle (FNum (3 # 2)) boot_state) = FNum 1
  /\ dc_openloop_setpoint (motorctl_set_duty_cycle (FNum (- 1 # 4)) boot_state) = FNum 0
  /\ in_range 0 1
       (dc_openloop_setpoint (motorctl_set_duty_cycle (FNum (3 # 10)) boot_state))
  /\ rpm_setpoint
       (motorctl_set_rpm
          {| spinup_voltage := FNum 2; dc_step_max := FNum (1 # 5);
             dc_slope := FNum 1; voltage_current_lowpass_tau := FNum 2;
             poles := 14; reverse := false; comm_period_limit := 4761;
             rpm_max := 3000; rpm_min := 500 |} 5000 boot_state) = 3000.
Proof.
  split; [|split; [|split]].
  - apply (setters_clamp_and_switch_mode boot_params boot_state (FNum (3 # 2)) 0).
    reflexivity.
  - apply (setters_clamp_and_switch_mode boot_params boot_state (FNum (- 1 # 4)) 0).
    reflexivity.
  - apply (setters_clamp_and_switch_mode boot_params boot_state (FNum (3 # 10)) 0).
    reflexivity.
  - apply (setters_clamp_and_switch_mode
             {| spinup_voltage := FNum 2; dc_step_max := FNum (1 # 5);
                dc_slope := FNum 1; voltage_current_lowpass_tau := FNum 2;
                poles := 14; reverse := false; comm_period_limit := 4761;
                rpm_max := 3000; rpm_min := 500 |} boot_state (FNum 0) 5000).
    simpl. lia.
Defined.

(** C7 fails on the code for one argument.  [motorctl_set_duty_cycle]
    clamps with [dc < 0.0] and [dc > 1.0]; NaN passes both tests, so the
    call stores NaN as the open-loop setpoint, which is no value of
    [0,1].  The mode is switched all the same.  [update_control] guards
    its own result with [isfinite]; the setter has no such guard. *)
Theorem set_duty_cycle_stores_nan :
  forall s : state,
    dc_openloop_setpoint (motorctl_set_duty_cycle FNaN s) = FNaN
    /\ ~ in_range 0 1 (dc_openloop_setpoint (motorctl_set_duty_cycle FNaN s))
    /\ mode (motorctl_set_duty_cycle FNaN s) = MOTORCTL_MODE_OPENLOOP.
Proof.
  intros s. rewrite set_duty_cycle_fields.
  cbn [dc_openloop_setpoint mode]. repeat split. intros H. exact H.
Qed.

(** ** Limit flags *)

Lemma flag_set_after_lor (m f : Z) : Z.land (Z.lor m f) f = f.
Proof.
  apply Z.bits_inj'. intros n Hn.
  rewrite Z.land_spec, Z.lor_spec.
  destruct (Z.testbit m n), (Z.testbit f n); reflexivity.
Qed.

Lemma flag_clear_after_land (m f : Z) : Z.land (Z.land m (Z.lnot f)) f = 0.
Proof.
  apply Z.bits_inj'. intros n Hn.
  rewrite !Z.land_spec, Z.lnot_spec, Z.bits_0 by assumption.
  destruct (Z.testbit m n), (Z.testbit f n); reflexivity.
Qed.

(** ** The control law reads only the mode, the setpoint and the driver *)

Lemma open_loop_setpoint_fields (s : state) :
  fst (open_loop_setpoint s) =
    set_limit_mask (Z.land (limit_mask s) (Z.lnot MOTORCTL_LIMIT_RPM)) s.
Proof.
  unfold open_loop_setpoint.
  destruct (fgt _ _); reflexivity.
Qed.

Lemma primary_control_state (p : params) (dt : cfloat) (d : driver) (s : state) :
  exists m, fst (primary_control p dt d s) = set_limit_mask m s.
Proof.
  unfold primary_control, update_control_open_loop.
  destruct (mode s).
  - destruct (drv_comm_period d =? 0).
    + exists (limit_mask s). now destruct s.
    + destruct (drv_comm_period d <? comm_period_limit p).
      * destruct (flt _ _).
        -- eexists; reflexivity.
        -- eexists; apply open_loop_setpoint_fields.
      * eexists; apply open_loop_setpoint_fields.
  - exists (limit_mask s). now destruct s.
Qed.

Lemma primary_control_after_filters (p : params) (dt dt' : cfloat) (d : driver)
    (s : state) :
  snd (primary_control p dt d (update_filters p dt' d s))
  = snd (primary_control p dt d s).
Proof.
  unfold primary_control, update_control_open_loop, open_loop_setpoint,
    update_filters.
  cbn [mode set_input dc_openloop_setpoint limit_mask set_limit_mask].
  destruct (mode s); [|reflexivity].
  destruct (drv_comm_period d =? 0); [reflexivity|].
  destruct (drv_comm_period d <? comm_period_limit p).
  - destruct (flt _ _); [reflexivity|].
    destruct (fgt _ _); reflexivity.
  - destruct (fgt _ _); reflexivity.
Qed.

Lemma stop_fields (s : state) :
  stop s =
  ({| mode := mode s; limit_mask := 0; dc_actual := FNum 0;
      dc_openloop_setpoint := FNum 0; rpm_setpoint := 0;
      input_voltage := input_voltage s; input_current := input_current s |},
   [MotorStop]).
Proof. reflexivity. Qed.

(** ** One iteration of the worker *)

(** A commutation period of 0 leaves the control law of either mode
    without a finite result. *)
Lemma comm_period_zero_no_output (p : params) (dt : cfloat) (d : driver)
    (s : state) :
  drv_comm_period d = 0 ->
  isfinite (snd (primary_control p dt d s)) = false.
Proof.
  intros Hcp. unfold primary_control, update_control_open_loop.
  rewrite Hcp. destruct (mode s); reflexivity.
Qed.

Lemma update_control_non_running_mask (p : params) (d : driver) (s : state) :
  limit_mask (fst (update_control_non_running p d s))
  = match drv_state_again d with
    | MOTOR_STATE_STARTING => limit_mask s
    | _ => 0
    end.
Proof.
  unfold update_control_non_running.
  destruct (drv_state_again d); reflexivity.
Qed.

Lemma slope_control_setpoints (p : params) (dt c : cfloat) (s : state) :
  dc_openloop_setpoint (fst (slope_control p dt c s)) = dc_openloop_setpoint s
  /\ rpm_setpoint (fst (slope_control p dt c s)) = rpm_setpoint s.
Proof.
  unfold slope_control. destruct (fgt _ _); split; reflexivity.
Qed.

Section Tick.

Variables (p : params) (now : Z) (d : driver) (w : worker) (s : state).

Let dt : cfloat := elapsed now w.
Let filtered : state := update_filters p dt d s.

Section Running.

Hypothesis Hrun : drv_state d = MOTOR_STATE_RUNNING.

(** Without a finite result of the control law the tick ends in
    [stop]. *)
Lemma tick_without_output :
  isfinite (snd (primary_control p dt d s)) = false ->
  control_thread_step p now d w s =
  ({| timestamp_hnsec := now |},
   {| mode := mode s; limit_mask := 0; dc_actual := FNum 0;
      dc_openloop_setpoint := FNum 0; rpm_setpoint := 0;
      input_voltage := input_voltage filtered;
      input_current := input_current filtered |},
   [MotorStop]).
Proof.
  intros Hnf. subst filtered dt.
  unfold control_thread_step, update_control. rewrite Hrun.
  rewrite <- (primary_control_after_filters p _ (elapsed now w)) in Hnf.
  destruct (primary_control_state p (elapsed now w) d
              (update_filters p (elapsed now w) d s)) as [m Hm].
  destruct (primary_control p (elapsed now w) d
              (update_filters p (elapsed now w) d s)) as [s1 c].
  cbn [fst snd] in *. rewrite Hnf. cbn [negb].
  rewrite stop_fields, Hm. reflexivity.
Qed.

(** With a finite result the tick goes through [slope_control], on a
    record that still has the [dc_actual] of before the tick. *)
Lemma tick_with_output :
  isfinite (snd (primary_control p dt d s)) = true ->
  exists m,
    control_thread_step p now d w s =
    ({| timestamp_hnsec := now |},
     fst (slope_control p dt (snd (primary_control p dt d s))
            (set_limit_mask m filtered)),
     snd (slope_control p dt (snd (primary_control p dt d s))
            (set_limit_mask m filtered))).
Proof.
  intros Hfin. subst filtered dt.
  unfold control_thread_step, update_control. rewrite Hrun.
  rewrite <- (primary_control_after_filters p _ (elapsed now w))
    in Hfin |- *.
  destruct (primary_control_state p (elapsed now w) d
              (update_filters p (elapsed now w) d s)) as [m Hm].
  destruct (primary_control p (elapsed now w) d
              (update_filters p (elapsed now w) d s)) as [s1 c].
  cbn [fst snd] in *. rewrite Hfin. cbn [negb]. subst s1.
  exists m. now destruct (slope_control _ _ _ _).
Qed.

End Running.

(** When the driver does not report the motor running the tick is
    [update_control_non_running] on the filtered record. *)
Lemma tick_not_running :
  drv_state d <> MOTOR_STATE_RUNNING ->
  snd (fst (control_thread_step p now d w s))
  = fst (update_control_non_running p d filtered).
Proof.
  intros Hnr. subst filtered dt. unfold control_thread_step, update_control.
  destruct (drv_state d); try contradiction;
    now destruct (update_control_non_running _ _ _).
Qed.

(** A tick keeps both setpoints, or resets both to 0. *)
Lemma tick_setpoints :
  (dc_openloop_setpoint (snd (fst (control_thread_step p now d w s)))
     = dc_openloop_setpoint s
   /\ rpm_setpoint (snd (fst (control_thread_step p now d w s)))
      = rpm_setpoint s)
  \/ (dc_openloop_setpoint (snd (fst (control_thread_step p now d w s)))
        = FNum 0
      /\ rpm_setpoint (snd (fst (control_thread_step p now d w s))) = 0).
Proof.
  destruct (drv_state d) eqn:Hd.
  1, 2: left; rewrite tick_not_running by (rewrite Hd; discriminate);
    unfold update_control_non_running;
    destruct (drv_state_again d); split; reflexivity.
  destruct (isfinite (snd (primary_control p dt d s))) eqn:Hf.
  - left. destruct (tick_with_output Hd Hf) as [m ->].
    cbn [fst snd].
    exact (slope_control_setpoints p _ _ (set_limit_mask m filtered)).
  - right. rewrite (tick_without_output Hd Hf).
    split; reflexivity.
Qed.

End Tick.

(** C2.  On a tick with the motor running, when the control law of the
    current mode returns no finite duty cycle, as it does when the driver
    reports a commutation period of 0, the worker stops the motor: the
    one command to the driver is the stop, the limit mask is empty,
    [dc_actual] is 0 and both setpoints are 0. *)
Theorem no_valid_output_forces_full_stop :
  forall (p : params) (now : Z) (d : driver) (w : worker) (s : state),
    drv_state d = MOTOR_STATE_RUNNING ->
    isfinite (snd (primary_control p (elapsed now w) d s)) = false
    \/ drv_comm_period d = 0 ->
    exists w' s',
      control_thread_step p now d w s = (w', s', [MotorStop])
      /\ limit_mask s' = 0
      /\ dc_actual s' = FNum 0
      /\ dc_openloop_setpoint s' = FNum 0
      /\ rpm_setpoint s' = 0.
Proof.
  intros p now d w s Hrun Hnone.
  assert (Hnf : isfinite (snd (primary_control p (elapsed now w) d s)) = false).
  { destruct Hnone as [H | H]; [exact H|].
    now apply comm_period_zero_no_output. }
  rewrite (tick_without_output p now d w s Hrun Hnf).
  do 2 eexists. split; [reflexivity|]. cbn. repeat split.
Qed.

(** The scenario of the stalled motor: commutation period 0 on the next
    tick. *)
Lemma no_valid_output_forces_full_stop_witness :
  exists w' s',
    control_thread_step sample_params 10000 stalled_driver
      {| timestamp_hnsec := 0 |} spinning_state = (w', s', [MotorStop])
    /\ limit_mask s' = 0
    /\ dc_actual s' = FNum 0
    /\ dc_openloop_setpoint s' = FNum 0
    /\ rpm_setpoint s' = 0.
Proof.
  apply (no_valid_output_forces_full_stop sample_params 10000 stalled_driver
           {| timestamp_hnsec := 0 |} spinning_state);
    [reflexivity | right; reflexivity].
Defined.

(** C4.  In the RPM mode the control law is [update_control_rpm], which
    returns NaN whatever the elapsed time; so every tick on a running
    motor in that mode ends in the stop, and no duty cycle is sent to
    the driver. *)
Theorem rpm_mode_always_stops :
  forall (p : params) (now : Z) (d : driver) (w : worker) (s : state),
    drv_state d = MOTOR_STATE_RUNNING ->
    mode s = MOTORCTL_MODE_RPM ->
    snd (primary_control p (elapsed now w) d s) = FNaN
    /\ exists w' s' cmds,
         control_thread_step p now d w s = (w', s', cmds)
         /\ cmds = [MotorStop]
         /\ (forall dc, ~ In (MotorSetDutyCycle dc) cmds)
         /\ dc_actual s' = FNum 0.
Proof.
  intros p now d w s Hrun Hmode.
  assert (Hc : snd (primary_control p (elapsed now w) d s) = FNaN).
  { unfold primary_control. rewrite Hmode. reflexivity. }
  split; [exact Hc|].
  rewrite (tick_without_output p now d w s Hrun) by now rewrite Hc.
  do 3 eexists. split; [reflexivity|]. split; [reflexivity|].
  split; [|reflexivity].
  intros dc [H | []]. discriminate H.
Qed.

Lemma rpm_mode_always_stops_witness :
  snd (primary_control sample_params (elapsed 10000 {| timestamp_hnsec := 0 |})
         (running_driver 2000)
         (motorctl_set_rpm sample_params 3000 spinning_state)) = FNaN
  /\ exists w' s' cmds,
       control_thread_step sample_params 10000 (running_driver 2000)
         {| timestamp_hnsec := 0 |}
         (motorctl_set_rpm sample_params 3000 spinning_state)
       = (w', s', cmds)
       /\ cmds = [MotorStop]
       /\ (forall dc, ~ In (MotorSetDutyCycle dc) cmds)
       /\ dc_actual s' = FNum 0.
Proof.
  apply (rpm_mode_always_stops sample_params 10000 (running_driver 2000)
           {| timestamp_hnsec := 0 |}
           (motorctl_set_rpm sample_params 3000 spinning_state)); reflexivity.
Defined.

(** ** Slope control *)


Lemma started_by_init : motorctl_init good_env boot = Ok (0, started).
Proof. reflexivity. Qed.



(** ** The P controller of the open loop *)

Lemma inject_Z_half_lt (limit : Z) :
  0 < limit -> (inject_Z (limit / 2) < inject_Z limit)%Q.
Proof.
  intros H. rewrite <- Zlt_Qlt. apply Z.div_lt; lia.
Qed.

(** C5, as the code has it.  With [c1] the limit period and [c0] its
    integer half, the throttle-back value [(cp - c0) / (c1 - c0)] is 1
    at [cp = c1] and 0 at [cp = c0]. *)
Theorem throttle_back_endpoints :
  forall limit : Z,
    0 < limit ->
    feq (throttle_back limit limit) (FNum 1)
    /\ feq (throttle_back limit (limit / 2)) (FNum 0).
Proof.
  intros limit Hpos.
  pose proof (inject_Z_half_lt limit Hpos) as Hlt.
  assert (Hne : ~ (inject_Z limit + - inject_Z (limit / 2) == 0)%Q).
  { intros E. apply (Qlt_irrefl (inject_Z limit)).
    assert (E' : (inject_Z limit == inject_Z (limit / 2))%Q).
    { rewrite <- (Qplus_0_r (inject_Z (limit / 2))), <- E. ring. }
    rewrite E' at 1. exact Hlt. }
  unfold throttle_back, of_int, fsub, fopp, fadd, fdiv.
  destruct (Qeq_bool (inject_Z limit + - inject_Z (limit / 2)) 0) eqn:Ez.
  { apply Qeq_bool_iff in Ez. contradiction. }
  split; cbn [feq].
  - field. exact Hne.
  - field. exact Hne.
Qed.

Lemma throttle_back_endpoints_witness :
  feq (throttle_back 1000 1000) (FNum 1)
  /\ feq (throttle_back 1000 (1000 / 2)) (FNum 0).
Proof.
  apply (throttle_back_endpoints 1000). lia.
Defined.

(** C5, as the claim has it, fails: at a limit period of 1000 the value
    at [cp = c1 = 1000] is 1, not 0.5. *)
Lemma throttle_back_half_counterexample :
  throttle_back 1000 1000 = FNum (500 # 500)
  /\ ~ feq (throttle_back 1000 1000) (FNum (1 # 2)).
Proof.
  split; [reflexivity|].
  cbn. intros H. discriminate H.
Qed.

(** ** The limit mask while the motor is not running *)

(** C6, as the code has it.  A tick on which the driver does not report
    the motor running never sets a flag of the limit mask: it leaves the
    mask as it is when the driver is in its spin-up sequence, and empties
    it otherwise.  The setters leave the mask as it is. *)
Theorem limit_mask_when_not_running :
  forall (p : params) (now : Z) (d : driver) (w : worker) (s : state),
    drv_state d <> MOTOR_STATE_RUNNING ->
    (drv_state_again d = MOTOR_STATE_STARTING ->
     limit_mask (snd (fst (control_thread_step p now d w s))) = limit_mask s)
    /\ (drv_state_again d <> MOTOR_STATE_STARTING ->
        limit_mask (snd (fst (control_thread_step p now d w s))) = 0)
    /\ (forall f : Z,
           Z.land (limit_mask s) f = 0 ->
           Z.land (limit_mask (snd (fst (control_thread_step p now d w s)))) f = 0)
    /\ (forall dc, limit_mask (motorctl_set_duty_cycle dc s) = limit_mask s)
    /\ (forall rpm, limit_mask (motorctl_set_rpm p rpm s) = limit_mask s).
Proof.
  intros p now d w s Hnr.
  rewrite (tick_not_running p now d w s Hnr),
    update_control_non_running_mask.
  cbn [update_filters set_input limit_mask].
  split; [|split; [|split; [|split]]].
  - intros ->. reflexivity.
  - intros Hns. destruct (drv_state_again d); try reflexivity.
    now contradiction Hns.
  - intros f Hf. destruct (drv_state_again d); try exact Hf; reflexivity.
  - intros dc. reflexivity.
  - intros rpm. rewrite set_rpm_fields. reflexivity.
Qed.

Lemma limit_mask_when_not_running_witness :
  limit_mask
    (snd (fst (control_thread_step sample_params 10000 starting_driver
                 {| timestamp_hnsec := 0 |} spinning_state)))
  = MOTORCTL_LIMIT_RPM
  /\ limit_mask
       (snd (fst (control_thread_step sample_params 10000 idle_driver
                    {| timestamp_hnsec := 0 |} spinning_state)))
     = 0.
Proof.
  split.
  - apply (limit_mask_when_not_running sample_params 10000 starting_driver
             {| timestamp_hnsec := 0 |} spinning_state);
      [discriminate | reflexivity].
  - apply (limit_mask_when_not_running sample_params 10000 idle_driver
             {| timestamp_hnsec := 0 |} spinning_state); discriminate.
Defined.

(** C6, as the claim has it, fails.  After [motorctl_init] and a setpoint
    of 0.5, a tick on a running motor faster than the limit (period 550
    under a limit of 1000) sets the RPM flag; on the next tick the driver
    reports idle, and that tick empties the mask. *)
Lemma limit_mask_cleared_counterexample :
  limit_mask
    (sys_state
       (fst (run [OpSetDutyCycle (FNum (1 # 2));
                  OpTick 10000 (running_driver 550)] started)))
  = MOTORCTL_LIMIT_RPM
  /\ drv_state idle_driver = MOTOR_STATE_IDLE
  /\ limit_mask
       (sys_state
          (fst (run [OpSetDutyCycle (FNum (1 # 2));
                     OpTick 10000 (running_driver 550);
                     OpTick 20000 idle_driver] started)))
     = 0
  /\ MOTORCTL_LIMIT_RPM <> 0.
Proof.
  repeat split. discriminate.
Qed.

(** ** Commutation period and RPM *)

Lemma comm_period_to_rpm_defined (p : params) (cp : Z) :
  0 < poles p -> poles p * 6 <= INT_MAX -> cp <> 0 ->
  comm_period_to_rpm p cp = Ok (120 * HNSEC_PER_SEC / (poles p * 6) / cp).
Proof.
  intros Hp Hov Hcp. unfold comm_period_to_rpm.
  destruct (Z.leb_spec (poles p) 0); [lia|].
  destruct (Z.ltb_spec INT_MAX (poles p * 6)); [lia|].
  destruct (Z.eqb_spec cp 0); [lia|].
  f_equal. f_equal.
  unfold INT_MAX in Hov. unfold uint32, uint64, HNSEC_PER_SEC.
  change (2 ^ 31 - 1) with 2147483647 in Hov.
  change (2 ^ 64) with 18446744073709551616.
  change (2 ^ 32) with 4294967296.
  rewrite (Z.mod_small 10000000) by lia.
  rewrite (Z.mod_small (120 * 10000000)) by lia.
  rewrite (Z.mod_small (poles p * 6)) by lia.
  apply Z.mod_small. split.
  - apply Z.div_pos; lia.
  - apply Z.div_lt_upper_bound; lia.
Qed.

(** C8.  For a positive pole count (whose product by 6 is still an
    [int]) and a positive commutation period, [comm_period_to_rpm] is the
    integer quotient of [120 * HNSEC_PER_SEC] by [poles * 6 * period].
    With 14 poles the period of 1000 RPM falls between 14285 and 14286
    ticks; the first gives 1000 and the second 999. *)
Theorem comm_period_to_rpm_formula :
  forall (p : params) (comm_period : Z),
    0 < poles p ->
    poles p * 6 <= INT_MAX ->
    0 < comm_period ->
    comm_period_to_rpm p comm_period
      = Ok (120 * HNSEC_PER_SEC / (poles p * 6 * comm_period))
    /\ (poles p = 14 ->
        120 * HNSEC_PER_SEC / (poles p * 6 * 1000) = 14285
        /\ comm_period_to_rpm p 14285 = Ok 1000
        /\ comm_period_to_rpm p (14285 + 1) = Ok 999).
Proof.
  intros p cp Hp Hov Hcp. split.
  - rewrite comm_period_to_rpm_defined by lia.
    f_equal. apply Z.div_div; lia.
  - intros H14.
    rewrite !comm_period_to_rpm_defined by lia.
    rewrite H14. repeat split.
Qed.

Lemma comm_period_to_rpm_formula_witness :
  comm_period_to_rpm sample_params 2500
    = Ok (120 * HNSEC_PER_SEC / (14 * 6 * 2500))
  /\ comm_period_to_rpm sample_params 14285 = Ok 1000.
Proof.
  split.
  - apply (comm_period_to_rpm_formula sample_params 2500); vm_compute;
      reflexivity || discriminate.
  - apply (comm_period_to_rpm_formula sample_params 2500); vm_compute;
      reflexivity || discriminate.
Defined.

(** ** Initialisation *)

Lemma configure_defined (limit : Z) (p : params) :
  limit <> 0 ->
  exists p', configure limit p = Ok p'
             /\ rpm_max p' = 120 * HNSEC_PER_SEC / (14 * 6) / limit.
Proof.
  intros Hl. unfold configure.
  rewrite comm_period_to_rpm_defined; cbn [poles comm_period_limit];
    try assumption; try (vm_compute; reflexivity || discriminate).
  cbn [bind]. eexists. split; reflexivity.
Qed.

(** The failures of the start.  When [motor_init] fails,
    [motorctl_init] returns its status and leaves parameters, state,
    synchronisation objects and worker as they were.  When the seeded input voltage is below 4 V (0 V for one) or
    above 40 V, [motorctl_init] starts no worker, whatever the driver
    reports as limit period; and with a limit period that is not 0 it
    returns -1. *)
Theorem init_failures :
  forall (e : init_env) (y : sys),
    (env_motor_init e <> 0 ->
     motorctl_init e y = Ok (env_motor_init e, y))
    /\ (env_motor_init e = 0 ->
        voltage_out_of_band (env_voltage e) ->
        (forall ret y', motorctl_init e y = Ok (ret, y') ->
                        ret = -1 /\ sys_worker y' = sys_worker y)
        /\ (env_limit_comm_period e <> 0 ->
            exists y', motorctl_init e y = Ok (-1, y')
                       /\ sys_worker y' = sys_worker y))
    /\ voltage_out_of_band (FNum 0).
Proof.
  intros e y. split; [|split].
  - intros Hret. unfold motorctl_init.
    destruct (Z.eqb_spec (env_motor_init e) 0); [contradiction|reflexivity].
  - intros Hret Hv. unfold motorctl_init. rewrite Hret. cbn [Z.eqb negb].
    assert (Hcheck :
      flt (input_voltage (init_filters (env_voltage e) (env_current e)
                            (sys_state y))) MIN_VALID_INPUT_VOLTAGE
      || fgt (input_voltage (init_filters (env_voltage e) (env_current e)
                               (sys_state y))) MAX_VALID_INPUT_VOLTAGE = true).
    { cbn [init_filters set_input input_voltage].
      destruct Hv as [Hv | Hv]; rewrite Hv; [reflexivity|apply orb_true_r]. }
    split.
    + intros ret y'.
      destruct (configure (env_limit_comm_period e) (sys_params y)) as [p'|f];
        cbn [bind]; [|discriminate].
      rewrite Hcheck. intros H. injection H as <- <-. split; reflexivity.
    + intros Hl.
      destruct (configure_defined (env_limit_comm_period e) (sys_params y) Hl)
        as (p' & Hp' & _).
      rewrite Hp'. cbn [bind]. rewrite Hcheck.
      eexists. split; reflexivity.
  - left. reflexivity.
Qed.

(** The scenarios: the driver fails with status 5; the supply reads 0 V. *)
Lemma init_failures_witness :
  motorctl_init
    {| env_motor_init := 5; env_limit_comm_period := 1000;
       env_voltage := FNum 12; env_current := FNum 0; env_timer := 0 |} boot
  = Ok (5, boot)
  /\ exists y',
       motorctl_init
         {| env_motor_init := 0; env_limit_comm_period := 1000;
            env_voltage := FNum 0; env_current := FNum 0; env_timer := 0 |} boot
       = Ok (-1, y')
       /\ sys_worker y' = None.
Proof.
  split.
  - apply (init_failures
             {| env_motor_init := 5; env_limit_comm_period := 1000;
                env_voltage := FNum 12; env_current := FNum 0;
                env_timer := 0 |} boot).
    discriminate.
  - apply (init_failures
             {| env_motor_init := 0; env_limit_comm_period := 1000;
                env_voltage := FNum 0; env_current := FNum 0;
                env_timer := 0 |} boot);
      [reflexivity | left; reflexivity | discriminate].
Defined.

(** C9 fails on the code.  The test of the seeded voltage is
    [v < 4.0 || v > 40.0]; a NaN sample, which is no voltage of the
    band, passes it, and [motorctl_init] starts the worker and
    returns 0.  And when the driver reports a limit period of 0,
    [configure] divides by it before the voltage is looked at, so that a
    supply reading 0 V gets no failure status either. *)
Theorem init_accepts_nan_voltage :
  motorctl_init nan_env boot = Ok (0, nan_started)
  /\ sys_worker nan_started = Some {| timestamp_hnsec := 0 |}
  /\ ~ in_range 4 40 (env_voltage nan_env)
  /\ motorctl_init no_limit_env boot = Fault DivisionByZero.
Proof.
  split; [reflexivity|]. split; [reflexivity|]. split; [|reflexivity].
  intros H. exact H.
Qed.

(** ** Reading the RPM of a stopped motor *)

Lemma comm_period_to_rpm_zero (p : params) :
  forall r, comm_period_to_rpm p 0 <> Ok r.
Proof.
  intros r. unfold comm_period_to_rpm.
  destruct (poles p <=? 0); [discriminate|].
  destruct (INT_MAX <? poles p * 6); discriminate.
Qed.

(** C10 fails on the code.  When the driver reports a commutation period
    of 0, [motorctl_get_rpm] passes it to [comm_period_to_rpm], whose
    division [x / comm_period_hnsec] then has the divisor 0; no parameters
    make the call return a value.  [update_control_open_loop] tests the
    period for 0 before it uses it, [motorctl_get_rpm] does not. *)
Theorem get_rpm_of_stopped_motor :
  motorctl_get_rpm sample_params idle_driver = Fault DivisionByZero
  /\ forall (p : params) (d : driver),
       drv_comm_period d = 0 -> forall r, motorctl_get_rpm p d <> Ok r.
Proof.
  split; [reflexivity|].
  intros p d Hcp r. unfold motorctl_get_rpm. rewrite Hcp.
  apply comm_period_to_rpm_zero.
Qed.

(** ** Invariants of the shared record *)

Lemma step_params (o : op) (y : sys) :
  sys_params (fst (step o y)) = sys_params y.
Proof.
  destruct o as [now d | dc | rpm |]; cbn [step]; try reflexivity.
  destruct (sys_worker y) as [w|]; [|reflexivity].
  now destruct (control_thread_step _ _ _ _ _) as [[w1 s1] c].
Qed.

Lemma step_setpoints_ok (o : op) (y : sys) :
  numeric_op o ->
  0 <= rpm_max (sys_params y) ->
  setpoints_ok y ->
  setpoints_ok (fst (step o y)).
Proof.
  intros Hnum Hmax [Hdc Hrpm]. unfold setpoints_ok.
  rewrite step_params.
  destruct o as [now d | dc | rpm |]; cbn [step].
  - destruct (sys_worker y) as [w|]; [|now split].
    pose proof (tick_setpoints (sys_params y) now d w (sys_state y)) as H.
    destruct (control_thread_step _ _ _ _ _) as [[w1 s1] c].
    cbn [fst snd sys_state] in *.
    destruct H as [[-> ->] | [-> ->]]; [now split|].
    split; [apply zero_in_unit | exact Hmax].
  - cbn [fst with_state sys_state]. rewrite set_duty_cycle_fields.
    cbn [dc_openloop_setpoint rpm_setpoint].
    split; [now apply clamp01_in_range | exact Hrpm].
  - cbn [fst with_state sys_state]. rewrite set_rpm_fields.
    cbn [dc_openloop_setpoint rpm_setpoint]. split; [exact Hdc | lia].
  - cbn [fst with_state sys_state stop set_rpm_setpoint
           set_dc_openloop_setpoint dc_openloop_setpoint rpm_setpoint].
    split; [apply zero_in_unit | exact Hmax].
Qed.

Lemma run_setpoints_ok (ops : list op) :
  forall y : sys,
    Forall numeric_op ops ->
    0 <= rpm_max (sys_params y) ->
    setpoints_ok y ->
    setpoints_ok (fst (run ops y)).
Proof.
  induction ops as [|o rest IH]; intros y Hall Hmax Hok; [exact Hok|].
  inversion Hall as [|? ? Ho Hrest]; subst.
  cbn [run].
  pose proof (step_setpoints_ok o y Ho Hmax Hok) as H1.
  pose proof (step_params o y) as Hp.
  destruct (step o y) as [y1 c1]. cbn [fst] in *.
  specialize (IH y1 Hrest). rewrite Hp in IH. specialize (IH Hmax H1).
  now destruct (run rest y1).
Qed.

Lemma configure_zero (p : params) : configure 0 p = Fault DivisionByZero.
Proof. reflexivity. Qed.

Lemma init_establishes (e : init_env) (ret : Z) (y : sys) :
  0 <= env_limit_comm_period e ->
  motorctl_init e boot = Ok (ret, y) ->
  0 <= rpm_max (sys_params y) /\ setpoints_ok y.
Proof.
  intros Hl. unfold motorctl_init.
  destruct (env_motor_init e =? 0); cbn [negb].
  - destruct (Z.eq_dec (env_limit_comm_period e) 0) as [E | E].
    + rewrite E, configure_zero. discriminate.
    + destruct (configure_defined _ (sys_params boot) E) as (p' & -> & Hmax).
      cbn [bind].
      assert (Hpos : 0 <= rpm_max p').
      { rewrite Hmax. apply Z.div_pos; [vm_compute; discriminate | lia]. }
      destruct (_ || _); intros H; injection H as <- <-;
        (split; [exact Hpos|]); split; cbn; try lia; apply zero_in_unit.
  - intros H; injection H as <- <-.
    split; [cbn; lia|]. split; cbn; try lia. apply zero_in_unit.
Qed.

(** C1, as the code has it.  After [motorctl_init], whatever it
    returned, every sequence of worker ticks, setter calls and stops in
    which the commanded duty cycles are not NaN leaves
    [dc_openloop_setpoint] within [0,1] and [rpm_setpoint] at most
    [rpm_max]. *)
Theorem setpoints_stay_in_bounds :
  forall (e : init_env) (ret : Z) (y : sys) (ops : list op),
    0 <= env_limit_comm_period e ->
    motorctl_init e boot = Ok (ret, y) ->
    Forall numeric_op ops ->
    in_range 0 1 (dc_openloop_setpoint (sys_state (fst (run ops y))))
    /\ rpm_setpoint (sys_state (fst (run ops y)))
       <= rpm_max (sys_params (fst (run ops y))).
Proof.
  intros e ret y ops Hl Hinit Hall.
  destruct (init_establishes e ret y Hl Hinit) as [Hmax Hok].
  exact (run_setpoints_ok ops y Hall Hmax Hok).
Qed.

Lemma setpoints_stay_in_bounds_witness :
  in_range 0 1
    (dc_openloop_setpoint
       (sys_state
          (fst (run [OpSetDutyCycle (FNum (3 # 2)); OpSetRpm 99999;
                     OpTick 10000 (running_driver 2000);
                     OpSetDutyCycle (FNum (1 # 2));
                     OpTick 20000 (running_driver 600);
                     OpTick 30000 idle_driver] started))))
  /\ rpm_setpoint
       (sys_state
          (fst (run [OpSetDutyCycle (FNum (3 # 2)); OpSetRpm 99999;
                     OpTick 10000 (running_driver 2000);
                     OpSetDutyCycle (FNum (1 # 2));
                     OpTick 20000 (running_driver 600);
                     OpTick 30000 idle_driver] started)))
     <= rpm_max
          (sys_params
             (fst (run [OpSetDutyCycle (FNum (3 # 2)); OpSetRpm 99999;
                        OpTick 10000 (running_driver 2000);
                        OpSetDutyCycle (FNum (1 # 2));
                        OpTick 20000 (running_driver 600);
                        OpTick 30000 idle_driver] started))).
Proof.
  apply (setpoints_stay_in_bounds good_env 0 started).
  - vm_compute. discriminate.
  - reflexivity.
  - repeat constructor.
Defined.

(** C1, as the claim has it, fails for [dc_actual], in both directions.
    - Above 1: [motorctl_init] at 4 V, then a tick 6 s later on an idle
      motor with the supply reading 0 V.  The filtered voltage is 1 V and
      [update_control_non_running] stores [2 / 1] in [dc_actual].
    - Below 0: [motorctl_init] at 12 V, a setpoint of 0.125, then a tick
      on a motor running with period 450 under a limit of 1000.  The P
      controller returns [(450 - 500) / 500], within [dc_step_max] of the
      [dc_actual] of 0, and the worker stores it. *)
Lemma dc_actual_out_of_range_counterexample :
  motorctl_init low_env boot = Ok (0, low_started)
  /\ feq (dc_actual
            (sys_state
               (fst (run [OpTick 60000000 dead_supply_driver] low_started))))
         (FNum 2)
  /\ ~ invariant_as_claimed
         (fst (run [OpTick 60000000 dead_supply_driver] low_started))
  /\ motorctl_init good_env boot = Ok (0, started)
  /\ feq (dc_actual
            (sys_state
               (fst (run [OpSetDutyCycle (FNum (1 # 8));
                          OpTick 10000 (running_driver 450)] started))))
         (FNum (- 1 # 10))
  /\ ~ invariant_as_claimed
         (fst (run [OpSetDutyCycle (FNum (1 # 8));
                    OpTick 10000 (running_driver 450)] started)).
Proof.
  split; [reflexivity|]. split; [reflexivity|]. split.
  { intros [[_ H] _]. vm_compute in H. apply H. reflexivity. }
  split; [reflexivity|]. split; [reflexivity|].
  intros [[H _] _]. vm_compute in H. apply H. reflexivity.
Qed.

(** * Further properties of the code *)

(** ** The elapsed time of a tick *)

Lemma elapsed_value (now : Z) (w : worker) :
  elapsed now w
  = FNum (inject_Z (uint64 (now - timestamp_hnsec w)) / inject_Z HNSEC_PER_SEC).
Proof. reflexivity. Qed.

Lemma elapsed_nonneg_q (now : Z) (w : worker) :
  (0 <= inject_Z (uint64 (now - timestamp_hnsec w)) / inject_Z HNSEC_PER_SEC)%Q.
Proof.
  apply Qle_shift_div_l; [reflexivity|].
  rewrite Qmult_0_l. change 0%Q with (inject_Z 0). rewrite <- Zle_Qle.
  unfold uint64. apply Z.mod_pos_bound. reflexivity.
Qed.

(** X2.  The elapsed time that a tick computes is a number, never
    negative, whatever the two timer readings: the subtraction is
    unsigned and wraps.  It is 0 exactly when the two readings are equal
    modulo 2^64. *)
Theorem elapsed_is_a_duration :
  forall (now : Z) (w : worker),
    exists q : Q,
      elapsed now w = FNum q
      /\ (0 <= q)%Q
      /\ ((q == 0)%Q <-> uint64 (now - timestamp_hnsec w) = 0).
Proof.
  intros now w. eexists. split; [apply elapsed_value|].
  split; [apply elapsed_nonneg_q|].
  set (n := uint64 (now - timestamp_hnsec w)).
  split.
  - intros E.
    assert (En : (inject_Z n == 0)%Q).
    { assert (Ed : (inject_Z n
                    == inject_Z n / inject_Z HNSEC_PER_SEC
                       * inject_Z HNSEC_PER_SEC)%Q)
        by (field; discriminate).
      rewrite Ed, E. ring. }
    apply (proj1 (inject_Z_injective n 0)). exact En.
  - intros ->. reflexivity.
Qed.

(** ** What a tick leaves alone *)

Lemma slope_control_frame (p : params) (dt c : cfloat) (s : state) :
  mode (fst (slope_control p dt c s)) = mode s
  /\ input_voltage (fst (slope_control p dt c s)) = input_voltage s
  /\ input_current (fst (slope_control p dt c s)) = input_current s.
Proof.
  unfold slope_control. destruct (fgt _ _); repeat split.
Qed.

Lemma update_control_non_running_frame (p : params) (d : driver) (s : state) :
  mode (fst (update_control_non_running p d s)) = mode s
  /\ input_voltage (fst (update_control_non_running p d s)) = input_voltage s
  /\ input_current (fst (update_control_non_running p d s)) = input_current s.
Proof.
  unfold update_control_non_running.
  destruct (drv_state_again d); repeat split.
Qed.

Lemma tick_frame (p : params) (now : Z) (d : driver) (w : worker) (s : state) :
  mode (snd (fst (control_thread_step p now d w s))) = mode s
  /\ input_voltage (snd (fst (control_thread_step p now d w s)))
     = lowpass (input_voltage s) (drv_voltage d)
         (voltage_current_lowpass_tau p) (elapsed now w)
  /\ input_current (snd (fst (control_thread_step p now d w s)))
     = lowpass (input_current s) (drv_current d)
         (voltage_current_lowpass_tau p) (elapsed now w).
Proof.
  destruct (drv_state d) eqn:Hd.
  1, 2: rewrite tick_not_running by (rewrite Hd; discriminate);
    destruct (update_control_non_running_frame p d
                (update_filters p (elapsed now w) d s)) as (-> & -> & ->);
    repeat split.
  destruct (isfinite (snd (primary_control p (elapsed now w) d s))) eqn:Hf.
  - destruct (tick_with_output p now d w s Hd Hf) as [m ->].
    cbn [fst snd].
    destruct (slope_control_frame p (elapsed now w)
                (snd (primary_control p (elapsed now w) d s))
                (set_limit_mask m (update_filters p (elapsed now w) d s)))
      as (-> & -> & ->).
    repeat split.
  - rewrite (tick_without_output p now d w s Hd Hf). repeat split.
Qed.

Lemma tick_starting (p : params) (now : Z) (d : driver) (w : worker)
    (s : state) :
  drv_state d <> MOTOR_STATE_RUNNING ->
  drv_state_again d = MOTOR_STATE_STARTING ->
  control_thread_step p now d w s
  = ({| timestamp_hnsec := now |}, update_filters p (elapsed now w) d s, []).
Proof.
  intros Hnr Hst. unfold control_thread_step, update_control.
  destruct (drv_state d); try contradiction;
    unfold update_control_non_running; rewrite Hst; reflexivity.
Qed.

(** X4.  A tick never changes the mode.  While the driver is in its own
    spin-up sequence the tick sends it nothing and changes the shared
    record in the filtered telemetry only. *)
Theorem tick_keeps_mode_and_waits_for_spinup :
  forall (p : params) (now : Z) (d : driver) (w : worker) (s : state),
    mode (snd (fst (control_thread_step p now d w s))) = mode s
    /\ (drv_state d <> MOTOR_STATE_RUNNING ->
        drv_state_again d = MOTOR_STATE_STARTING ->
        control_thread_step p now d w s
        = ({| timestamp_hnsec := now |},
           update_filters p (elapsed now w) d s, [])).
Proof.
  intros p now d w s. split; [apply tick_frame|].
  apply tick_starting.
Qed.

Lemma tick_keeps_mode_and_waits_for_spinup_witness :
  control_thread_step sample_params 10000 starting_driver
    {| timestamp_hnsec := 0 |} spinning_state
  = ({| timestamp_hnsec := 10000 |},
     update_filters sample_params (elapsed 10000 {| timestamp_hnsec := 0 |})
       starting_driver spinning_state, []).
Proof.
  apply (tick_keeps_mode_and_waits_for_spinup sample_params 10000
           starting_driver {| timestamp_hnsec := 0 |} spinning_state);
    [discriminate | reflexivity].
Defined.

(** ** The commands of a tick *)

Lemma slope_control_command (p : params) (dt c : cfloat) (s : state) :
  snd (slope_control p dt c s)
  = [MotorSetDutyCycle (dc_actual (fst (slope_control p dt c s)))].
Proof.
  unfold slope_control. destruct (fgt _ _); reflexivity.
Qed.

Lemma update_control_non_running_command (p : params) (d : driver) (s : state) :
  snd (update_control_non_running p d s) = []
  \/ snd (update_control_non_running p d s)
     = [MotorStart (dc_actual (fst (update_control_non_running p d s)))
          (dc_actual (fst (update_control_non_running p d s))) (reverse p)].
Proof.
  unfold update_control_non_running.
  destruct (drv_state_again d); cbn [fst snd]; try (left; reflexivity);
    destruct (_ || _); (left; reflexivity) || (right; reflexivity).
Qed.

(** X5.  A tick sends the driver one command at most.  On a running
    motor it is the stop, or the duty cycle that [motorctl_get_duty_cycle]
    reports afterwards; otherwise it is nothing, or a start whose minimum
    and maximum duty are both that reported duty cycle, in the configured
    direction. *)
Theorem tick_sends_one_command :
  forall (p : params) (now : Z) (d : driver) (w : worker) (s : state),
    (length (snd (control_thread_step p now d w s)) <= 1)%nat
    /\ (drv_state d = MOTOR_STATE_RUNNING ->
        snd (control_thread_step p now d w s) = [MotorStop]
        \/ snd (control_thread_step p now d w s)
           = [MotorSetDutyCycle
                (motorctl_get_duty_cycle
                   (snd (fst (control_thread_step p now d w s))))])
    /\ (drv_state d <> MOTOR_STATE_RUNNING ->
        snd (control_thread_step p now d w s) = []
        \/ snd (control_thread_step p now d w s)
           = [MotorStart
                (motorctl_get_duty_cycle
                   (snd (fst (control_thread_step p now d w s))))
                (motorctl_get_duty_cycle
                   (snd (fst (control_thread_step p now d w s))))
                (reverse p)]).
Proof.
  intros p now d w s.
  assert (Hrun : drv_state d = MOTOR_STATE_RUNNING ->
                 snd (control_thread_step p now d w s) = [MotorStop]
                 \/ snd (control_thread_step p now d w s)
                    = [MotorSetDutyCycle
                         (dc_actual (snd (fst (control_thread_step p now d w s))))]).
  { intros Hd.
    destruct (isfinite (snd (primary_control p (elapsed now w) d s))) eqn:Hf.
    - right. destruct (tick_with_output p now d w s Hd Hf) as [m ->].
      cbn [fst snd]. apply slope_control_command.
    - left. rewrite (tick_without_output p now d w s Hd Hf). reflexivity. }
  assert (Hnr : drv_state d <> MOTOR_STATE_RUNNING ->
                snd (control_thread_step p now d w s) = []
                \/ snd (control_thread_step p now d w s)
                   = [MotorStart
                        (dc_actual (snd (fst (control_thread_step p now d w s))))
                        (dc_actual (snd (fst (control_thread_step p now d w s))))
                        (reverse p)]).
  { intros Hd.
    pose proof (update_control_non_running_command p d
                  (update_filters p (elapsed now w) d s)) as H.
    unfold control_thread_step, update_control.
    destruct (drv_state d); try contradiction;
      destruct (update_control_non_running _ _ _) as [s1 c1]; exact H. }
  split; [|split; assumption].
  destruct (drv_state d) eqn:Hd.
  1, 2: destruct Hnr as [-> | ->]; [discriminate | | ]; cbn; lia.
  destruct (Hrun eq_refl) as [-> | ->]; cbn; lia.
Qed.

(** ** Starting the motor *)

(** The tick on a motor that the driver reports neither running nor in
    its spin-up sequence. *)
Lemma tick_idle (p : params) (now : Z) (d : driver) (w : worker) (s : state) :
  drv_state d <> MOTOR_STATE_RUNNING ->
  drv_state_again d <> MOTOR_STATE_STARTING ->
  control_thread_step p now d w s
  = ({| timestamp_hnsec := now |},
     set_limit_mask 0
       (set_dc_actual
          (fdiv (spinup_voltage p)
                (lowpass (input_voltage s) (drv_voltage d)
                   (voltage_current_lowpass_tau p) (elapsed now w)))
          (update_filters p (elapsed now w) d s)),
     if (mode_eqb (mode s) MOTORCTL_MODE_OPENLOOP
           && fge (dc_openloop_setpoint s)
                (fdiv (spinup_voltage p)
                   (lowpass (input_voltage s) (drv_voltage d)
                      (voltage_current_lowpass_tau p) (elapsed now w))))
        || (mode_eqb (mode s) MOTORCTL_MODE_RPM
              && (rpm_min p <=? rpm_setpoint s))
     then [MotorStart
             (fdiv (spinup_voltage p)
                (lowpass (input_voltage s) (drv_voltage d)
                   (voltage_current_lowpass_tau p) (elapsed now w)))
             (fdiv (spinup_voltage p)
                (lowpass (input_voltage s) (drv_voltage d)
                   (voltage_current_lowpass_tau p) (elapsed now w)))
             (reverse p)]
     else []).
Proof.
  intros Hnr Hns. unfold control_thread_step, update_control.
  destruct (drv_state d); try contradiction;
    unfold update_control_non_running;
    destruct (drv_state_again d); try contradiction; reflexivity.
Qed.

(** X6.  Once both setpoints are 0, as [stop] leaves them, and with an
    RPM floor above 0, a tick on a motor that is not running restarts it
    in one case only: the mode is open-loop and the spin-up duty cycle
    that the tick has just stored in [dc_actual] compares not above 0.
    In the RPM mode the worker never restarts a stopped motor by
    itself. *)
Theorem no_restart_after_stop :
  forall (p : params) (now : Z) (d : driver) (w : worker) (s0 : state),
    drv_state d <> MOTOR_STATE_RUNNING ->
    0 < rpm_min p ->
    snd (control_thread_step p now d w (fst (stop s0))) = []
    \/ (mode s0 = MOTORCTL_MODE_OPENLOOP
        /\ fge (FNum 0)
             (dc_actual
                (snd (fst (control_thread_step p now d w (fst (stop s0))))))
           = true).
Proof.
  intros p now d w s0 Hnr Hmin.
  assert (Hstart : drv_state_again d = MOTOR_STATE_STARTING
                   \/ drv_state_again d <> MOTOR_STATE_STARTING).
  { destruct (drv_state_again d); (left; reflexivity) || (right; discriminate). }
  destruct Hstart as [Hst | Hns].
  { left. rewrite (tick_starting p now d w (fst (stop s0)) Hnr Hst).
    reflexivity. }
  rewrite tick_idle by assumption.
  cbn [snd fst stop set_rpm_setpoint set_dc_openloop_setpoint set_dc_actual
         set_limit_mask mode dc_openloop_setpoint rpm_setpoint dc_actual
         input_voltage].
  destruct (Z.leb_spec (rpm_min p) 0); [lia|].
  rewrite andb_false_r, orb_false_r.
  destruct (mode s0); cbn [mode_eqb andb]; [|left; reflexivity].
  destruct (fge _ _); [right; split; reflexivity | left; reflexivity].
Qed.

Lemma no_restart_after_stop_witness :
  snd (control_thread_step sample_params 20000 idle_driver
         {| timestamp_hnsec := 10000 |}
         (fst (stop (motorctl_set_rpm sample_params 3000 spinning_state))))
  = [].
Proof.
  destruct (no_restart_after_stop sample_params 20000 idle_driver
              {| timestamp_hnsec := 10000 |}
              (motorctl_set_rpm sample_params 3000 spinning_state))
    as [H | [H _]]; [discriminate | reflexivity | exact H | discriminate H].
Defined.

(** X8.  After a setter, the next tick on an idle motor decides the
    start on the stored setpoint alone.  After [motorctl_set_rpm] it
    starts the motor exactly when the stored RPM, the smaller of the
    argument and [rpm_max], reaches [rpm_min]; so it never does when
    [rpm_max] is below [rpm_min].  After [motorctl_set_duty_cycle] it
    starts the motor exactly when the stored setpoint is at least the
    spin-up duty cycle that the tick has just put in [dc_actual]. *)
Theorem start_follows_the_setpoint :
  forall (p : params) (now : Z) (d : driver) (w : worker) (s : state)
         (rpm : Z) (dc : cfloat),
    drv_state d <> MOTOR_STATE_RUNNING ->
    drv_state_again d <> MOTOR_STATE_STARTING ->
    (snd (control_thread_step p now d w (motorctl_set_rpm p rpm s)) = []
     <-> Z.min rpm (rpm_max p) < rpm_min p)
    /\ (rpm_max p < rpm_min p ->
        snd (control_thread_step p now d w (motorctl_set_rpm p rpm s)) = [])
    /\ (snd (control_thread_step p now d w (motorctl_set_duty_cycle dc s)) = []
        <-> fge (dc_openloop_setpoint (motorctl_set_duty_cycle dc s))
              (dc_actual
                 (snd (fst (control_thread_step p now d w
                              (motorctl_set_duty_cycle dc s)))))
            = false).
Proof.
  intros p now d w s rpm dc Hnr Hns.
  assert (Hrpm :
    snd (control_thread_step p now d w (motorctl_set_rpm p rpm s)) = []
    <-> Z.min rpm (rpm_max p) < rpm_min p).
  { rewrite tick_idle by assumption. rewrite set_rpm_fields.
    cbn [snd mode rpm_setpoint mode_eqb andb orb].
    destruct (Z.leb_spec (rpm_min p) (Z.min rpm (rpm_max p))) as [Hle | Hlt];
      split; intros H0; try reflexivity; try discriminate H0; lia. }
  split; [exact Hrpm|]. split.
  - intros Hlt. apply Hrpm. lia.
  - rewrite tick_idle by assumption. rewrite set_duty_cycle_fields.
    cbn [snd fst mode dc_openloop_setpoint mode_eqb andb orb input_voltage
           set_limit_mask set_dc_actual dc_actual].
    rewrite orb_false_r.
    destruct (fge _ _); split; intros H; try reflexivity; discriminate H.
Qed.

Lemma start_follows_the_setpoint_witness :
  snd (control_thread_step sample_params 10000 idle_driver
         {| timestamp_hnsec := 0 |}
         (motorctl_set_rpm sample_params 300 (sys_state started))) = []
  /\ snd (control_thread_step sample_params 10000 idle_driver
            {| timestamp_hnsec := 0 |}
            (motorctl_set_duty_cycle (FNum (1 # 10)) (sys_state started))) = [].
Proof.
  split.
  - apply (start_follows_the_setpoint sample_params 10000 idle_driver
             {| timestamp_hnsec := 0 |} (sys_state started) 300 (FNum 0));
      [discriminate | discriminate | reflexivity].
  - apply (start_follows_the_setpoint sample_params 10000 idle_driver
             {| timestamp_hnsec := 0 |} (sys_state started) 0 (FNum (1 # 10)));
      [discriminate | discriminate | reflexivity].
Defined.

(** ** A voltage that is not a number *)

Lemma lowpass_nan (xold xnew tau dt : cfloat) :
  xold = FNaN \/ xnew = FNaN -> lowpass xold xnew tau dt = FNaN.
Proof.
  intros [-> | ->]; unfold lowpass.
  - destruct tau, (fmul dt xnew); reflexivity.
  - destruct dt; reflexivity.
Qed.

Lemma step_keeps_nan_voltage (o : op) (y : sys) :
  input_voltage (sys_state y) = FNaN ->
  input_voltage (sys_state (fst (step o y))) = FNaN.
Proof.
  intros H. destruct o as [now d | dc | rpm |]; cbn [step]; try exact H.
  destruct (sys_worker y) as [w|]; [|exact H].
  pose proof (tick_frame (sys_params y) now d w (sys_state y)) as (_ & Hv & _).
  destruct (control_thread_step _ _ _ _ _) as [[w1 s1] c].
  cbn [fst snd sys_state] in *. rewrite Hv. apply lowpass_nan. now left.
Qed.

(** X20.  The voltage filter does not recover from NaN.  A tick whose
    voltage sample is NaN leaves the filtered voltage NaN; and once the
    filtered voltage is NaN, as a NaN seed at [motorctl_init] makes it,
    it is NaN after every sequence of ticks, setter calls and stops,
    whatever the later samples. *)
Theorem nan_voltage_is_absorbing :
  forall (ops : list op) (y : sys),
    input_voltage (sys_state y) = FNaN ->
    input_voltage (sys_state (fst (run ops y))) = FNaN
    /\ forall (p : params) (now : Z) (d : driver) (w : worker) (s : state),
         drv_voltage d = FNaN ->
         input_voltage (snd (fst (control_thread_step p now d w s))) = FNaN.
Proof.
  intros ops y Hy. split.
  - revert y Hy. induction ops as [|o rest IH]; intros y Hy; [exact Hy|].
    cbn [run].
    pose proof (step_keeps_nan_voltage o y Hy) as H1.
    destruct (step o y) as [y1 c1]. cbn [fst] in H1.
    specialize (IH y1 H1). now destruct (run rest y1).
  - intros p now d w s Hd.
    destruct (tick_frame p now d w s) as (_ & -> & _).
    apply lowpass_nan. now right.
Qed.

Lemma nan_voltage_is_absorbing_witness :
  input_voltage
    (sys_state
       (fst (run [OpTick 10000 idle_driver; OpSetDutyCycle (FNum (1 # 2));
                  OpTick 20000 idle_driver] nan_started))) = FNaN.
Proof.
  apply (nan_voltage_is_absorbing
           [OpTick 10000 idle_driver; OpSetDutyCycle (FNum (1 # 2));
            OpTick 20000 idle_driver] nan_started).
  reflexivity.
Defined.

(** X21.  With a filtered voltage or a voltage sample that is NaN, a
    tick on an idle motor stores NaN in [dc_actual]; in the open-loop
    mode it never starts the motor, whatever the setpoint, and in the
    RPM mode it starts it as soon as the RPM setpoint reaches the floor,
    with NaN as the spin-up duty cycle. *)
Theorem nan_voltage_on_idle_tick :
  forall (p : params) (now : Z) (d : driver) (w : worker) (s : state),
    drv_state d <> MOTOR_STATE_RUNNING ->
    drv_state_again d <> MOTOR_STATE_STARTING ->
    input_voltage s = FNaN \/ drv_voltage d = FNaN ->
    dc_actual (snd (fst (control_thread_step p now d w s))) = FNaN
    /\ (mode s = MOTORCTL_MODE_OPENLOOP ->
        snd (control_thread_step p now d w s) = [])
    /\ (mode s = MOTORCTL_MODE_RPM ->
        rpm_min p <= rpm_setpoint s ->
        snd (control_thread_step p now d w s)
        = [MotorStart FNaN FNaN (reverse p)]).
Proof.
  intros p now d w s Hnr Hns Hnan.
  rewrite tick_idle by assumption.
  rewrite (lowpass_nan _ _ _ _ Hnan).
  assert (Hdc : fdiv (spinup_voltage p) FNaN = FNaN)
    by (destruct (spinup_voltage p); reflexivity).
  rewrite Hdc. cbn [fst snd set_limit_mask set_dc_actual dc_actual].
  split; [reflexivity|]. split.
  - intros ->. cbn [mode_eqb andb orb].
    assert (Hge : fge (dc_openloop_setpoint s) FNaN = false) by reflexivity.
    rewrite Hge. reflexivity.
  - intros -> Hmin. cbn [mode_eqb andb orb].
    destruct (Z.leb_spec (rpm_min p) (rpm_setpoint s)); [reflexivity | lia].
Qed.

Lemma nan_voltage_on_idle_tick_witness :
  dc_actual
    (snd (fst (control_thread_step sample_params 10000 idle_driver
                 {| timestamp_hnsec := 0 |}
                 (motorctl_set_duty_cycle (FNum 1) (sys_state nan_started)))))
  = FNaN
  /\ snd (control_thread_step sample_params 10000 idle_driver
            {| timestamp_hnsec := 0 |}
            (motorctl_set_duty_cycle (FNum 1) (sys_state nan_started))) = [].
Proof.
  destruct (nan_voltage_on_idle_tick sample_params 10000 idle_driver
              {| timestamp_hnsec := 0 |}
              (motorctl_set_duty_cycle (FNum 1) (sys_state nan_started)))
    as (Hdc & Hopen & _);
    [discriminate | discriminate | left; reflexivity |].
  split; [exact Hdc | apply Hopen; reflexivity].
Defined.

(** ** The open-loop law *)

Lemma throttle_back_value (limit cp : Z) :
  0 < limit ->
  throttle_back limit cp
  = FNum ((inject_Z cp + - inject_Z (limit / 2))
          / (inject_Z limit + - inject_Z (limit / 2))).
Proof.
  intros Hpos. pose proof (inject_Z_half_lt limit Hpos) as Hlt.
  unfold throttle_back, of_int, fsub, fopp, fadd, fdiv.
  destruct (Qeq_bool (inject_Z limit + - inject_Z (limit / 2)) 0) eqn:Ez;
    [|reflexivity].
  apply Qeq_bool_iff in Ez. exfalso. lra.
Qed.

(** X9.  For a limit period above 0 and up to 2^24, where the
    conversion of the limit and of its half to [float] is exact, and a
    period of 32 bits, the throttle-back value of the P controller is a
    number; it is below 1 exactly for the periods below the limit, and
    below 0 exactly for the periods below the integer half of the
    limit. *)
Theorem throttle_back_range :
  forall limit cp : Z,
    0 < limit <= 2 ^ 24 ->
    0 <= cp < 2 ^ 32 ->
    exists q : Q,
      throttle_back limit cp = FNum q
      /\ (cp < limit <-> (q < 1)%Q)
      /\ (cp < limit / 2 <-> (q < 0)%Q).
Proof.
  intros limit cp [Hpos _] _.
  pose proof (inject_Z_half_lt limit Hpos) as Hlt.
  eexists. split; [now apply throttle_back_value|].
  assert (Hden : (0 < inject_Z limit + - inject_Z (limit / 2))%Q) by lra.
  assert (E : forall n : Q,
             (n == n / (inject_Z limit + - inject_Z (limit / 2))
                   * (inject_Z limit + - inject_Z (limit / 2)))%Q).
  { intros n. field. lra. }
  split; split.
  - intros H. rewrite Zlt_Qlt in H.
    apply Qlt_shift_div_r; [exact Hden | lra].
  - intros H. rewrite Zlt_Qlt.
    pose proof (E (inject_Z cp + - inject_Z (limit / 2))%Q) as En.
    set (x := ((inject_Z cp + - inject_Z (limit / 2))
               / (inject_Z limit + - inject_Z (limit / 2)))%Q) in *.
    nra.
  - intros H. rewrite Zlt_Qlt in H.
    apply Qlt_shift_div_r; [exact Hden | lra].
  - intros H. rewrite Zlt_Qlt.
    pose proof (E (inject_Z cp + - inject_Z (limit / 2))%Q) as En.
    set (x := ((inject_Z cp + - inject_Z (limit / 2))
               / (inject_Z limit + - inject_Z (limit / 2)))%Q) in *.
    nra.
Qed.

Lemma throttle_back_range_witness :
  exists q : Q,
    throttle_back 1000 450 = FNum q /\ (q < 1)%Q /\ (q < 0)%Q.
Proof.
  destruct (throttle_back_range 1000 450) as (q & Hq & H1 & H0);
    [split; [reflexivity | discriminate]
    | split; [discriminate | reflexivity] |].
  exists q. split; [exact Hq|]. split.
  - apply H1. lia.
  - apply H0. vm_compute. reflexivity.
Defined.

(** X10.  In the open-loop mode, with a period that is not 0 and a
    setpoint that is a number, the control law never returns more than
    the setpoint.  It returns nothing finite when the setpoint is 0 or
    less and the P controller does not take over; a number below the
    setpoint, with the RPM flag set, when the period is below the limit;
    or the setpoint itself, above 0, with the RPM flag clear. *)
Theorem open_loop_never_exceeds_setpoint :
  forall (p : params) (dt : cfloat) (d : driver) (s : state) (sp : Q),
    mode s = MOTORCTL_MODE_OPENLOOP ->
    0 < drv_comm_period d ->
    dc_openloop_setpoint s = FNum sp ->
    (snd (primary_control p dt d s) = FNaN
     /\ (sp <= 0)%Q
     /\ Z.land (limit_mask (fst (primary_control p dt d s))) MOTORCTL_LIMIT_RPM
        = 0)
    \/ (exists c : Q,
           snd (primary_control p dt d s) = FNum c
           /\ (c < sp)%Q
           /\ drv_comm_period d < comm_period_limit p
           /\ Z.land (limit_mask (fst (primary_control p dt d s)))
                MOTORCTL_LIMIT_RPM = MOTORCTL_LIMIT_RPM)
    \/ (snd (primary_control p dt d s) = FNum sp
        /\ (0 < sp)%Q
        /\ Z.land (limit_mask (fst (primary_control p dt d s)))
             MOTORCTL_LIMIT_RPM = 0).
Proof.
  intros p dt d s sp Hmode Hcp Hsp.
  assert (Htail :
    (snd (open_loop_setpoint s) = FNaN /\ (sp <= 0)%Q
     /\ Z.land (limit_mask (fst (open_loop_setpoint s))) MOTORCTL_LIMIT_RPM = 0)
    \/ (snd (open_loop_setpoint s) = FNum sp /\ (0 < sp)%Q
        /\ Z.land (limit_mask (fst (open_loop_setpoint s))) MOTORCTL_LIMIT_RPM
           = 0)).
  { unfold open_loop_setpoint.
    cbn [set_limit_mask dc_openloop_setpoint]. rewrite Hsp. cbn [fgt flt].
    destruct (Qlt_bool 0 sp) eqn:E; cbn [fst snd limit_mask].
    - right. apply Qlt_bool_iff in E.
      repeat split; try assumption. apply flag_clear_after_land.
    - left. apply Qlt_bool_false_iff in E.
      repeat split; try assumption. apply flag_clear_after_land. }
  unfold primary_control. rewrite Hmode. unfold update_control_open_loop.
  destruct (Z.eqb_spec (drv_comm_period d) 0); [lia|].
  destruct (Z.ltb_spec (drv_comm_period d) (comm_period_limit p)) as [Hlt | Hge].
  - rewrite throttle_back_value by lia. rewrite Hsp. cbn [flt].
    match goal with |- context [Qlt_bool ?q sp] =>
      destruct (Qlt_bool q sp) eqn:E end.
    + right; left. apply Qlt_bool_iff in E. eexists.
      cbn [fst snd limit_mask set_limit_mask].
      split; [reflexivity|]. split; [exact E|]. split; [exact Hlt|].
      apply flag_set_after_lor.
    + destruct Htail as [H | H]; [left | right; right]; exact H.
  - destruct Htail as [H | H]; [left | right; right]; exact H.
Qed.

Lemma open_loop_never_exceeds_setpoint_witness :
  exists c : Q,
    snd (primary_control sample_params (FNum (1 # 1000)) (running_driver 550)
           (motorctl_set_duty_cycle (FNum (1 # 2)) (sys_state started)))
    = FNum c
    /\ (c <= 1 # 2)%Q.
Proof.
  destruct (open_loop_never_exceeds_setpoint sample_params (FNum (1 # 1000))
              (running_driver 550)
              (motorctl_set_duty_cycle (FNum (1 # 2)) (sys_state started))
              (1 # 2) eq_refl eq_refl eq_refl)
    as [(H & _) | [(c & Hc & Hlt & _) | (H & _)]].
  - discriminate H.
  - exists c. split; [exact Hc|]. apply Qlt_le_weak. exact Hlt.
  - exists (1 # 2). split; [exact H|]. apply Qle_refl.
Defined.

Lemma fgt_one_zero (x : cfloat) :
  fgt x (FNum 1) = true -> fgt x (FNum 0) = true.
Proof.
  destruct x as [q | [|] |]; cbn; try discriminate; try reflexivity.
  intros H. apply Qlt_bool_iff in H. apply Qlt_bool_iff. lra.
Qed.

Lemma clamp01_not_positive (dc : cfloat) :
  fgt dc (FNum 0) = false -> fgt (clamp01 dc) (FNum 0) = false.
Proof.
  intros H. unfold clamp01.
  destruct (flt dc (FNum 0)); [reflexivity|].
  destruct (fgt dc (FNum 1)) eqn:E; [|exact H].
  apply fgt_one_zero in E. congruence.
Qed.

(** X11.  Commanding a duty cycle that is not above 0 stops a running
    motor on the next tick, as long as the P controller does not take
    over, that is for a period of 0 or one that is not below the
    limit. *)
Theorem zero_duty_cycle_stops_the_motor :
  forall (p : params) (now : Z) (d : driver) (w : worker) (s : state)
         (dc : cfloat),
    drv_state d = MOTOR_STATE_RUNNING ->
    fgt dc (FNum 0) = false ->
    drv_comm_period d = 0 \/ comm_period_limit p <= drv_comm_period d ->
    snd (control_thread_step p now d w (motorctl_set_duty_cycle dc s))
    = [MotorStop].
Proof.
  intros p now d w s dc Hrun Hdc Hcp.
  rewrite (tick_without_output p now d w _ Hrun); [reflexivity|].
  destruct Hcp as [H0 | Hge]; [now apply comm_period_zero_no_output|].
  rewrite set_duty_cycle_fields.
  unfold primary_control, update_control_open_loop, open_loop_setpoint.
  cbn [mode dc_openloop_setpoint set_limit_mask].
  destruct (drv_comm_period d =? 0); [reflexivity|].
  destruct (Z.ltb_spec (drv_comm_period d) (comm_period_limit p)); [lia|].
  rewrite clamp01_not_positive by exact Hdc. reflexivity.
Qed.

Lemma zero_duty_cycle_stops_the_motor_witness :
  snd (control_thread_step sample_params 10000 (running_driver 2000)
         {| timestamp_hnsec := 0 |}
         (motorctl_set_duty_cycle (FNum 0) spinning_state))
  = [MotorStop].
Proof.
  apply (zero_duty_cycle_stops_the_motor sample_params 10000
           (running_driver 2000) {| timestamp_hnsec := 0 |} spinning_state
           (FNum 0));
    [reflexivity | reflexivity | right; vm_compute; discriminate].
Defined.

(** ** The slope limiter approaching its target *)




(** ** How [comm_period_to_rpm] varies *)

(** X14.  For a fixed pole count a longer period never gives a higher
    RPM, and no period above 0 gives more than that of period 1, which
    is [120 * HNSEC_PER_SEC / (poles * 6)]; the RPM is never negative. *)
Theorem comm_period_to_rpm_antitone :
  forall (p : params) (cp1 cp2 : Z),
    0 < poles p ->
    poles p * 6 <= INT_MAX ->
    0 < cp1 <= cp2 ->
    exists r1 r2 : Z,
      comm_period_to_rpm p cp1 = Ok r1
      /\ comm_period_to_rpm p cp2 = Ok r2
      /\ 0 <= r2 <= r1
      /\ r1 <= 120 * HNSEC_PER_SEC / (poles p * 6).
Proof.
  intros p cp1 cp2 Hp Ho [H1 H12].
  rewrite !comm_period_to_rpm_defined by lia.
  do 2 eexists. split; [reflexivity|]. split; [reflexivity|].
  assert (Hx : 0 <= 120 * HNSEC_PER_SEC / (poles p * 6)).
  { apply Z.div_pos; [vm_compute; discriminate | lia]. }
  split; [split|].
  - apply Z.div_pos; lia.
  - apply Z.div_le_compat_l; lia.
  - apply Z.div_le_upper_bound; [lia|]. nia.
Qed.

Lemma comm_period_to_rpm_antitone_witness :
  exists r1 r2 : Z,
    comm_period_to_rpm sample_params 1000 = Ok r1
    /\ comm_period_to_rpm sample_params 2000 = Ok r2
    /\ 0 <= r2 <= r1
    /\ r1 <= 120 * HNSEC_PER_SEC / (14 * 6).
Proof.
  apply (comm_period_to_rpm_antitone sample_params 1000 2000);
    vm_compute; try reflexivity; try discriminate.
  split; [reflexivity | discriminate].
Defined.

(** ** A successful start *)

(** X15.  [motorctl_init] returns 0 exactly when [motor_init] returned
    0, the limit period of the driver is not 0 and the seeded voltage is
    neither below 4 V nor above 40 V.  It then has started the worker on
    the timer reading, initialised the synchronisation objects, seeded
    the filters with the sample and left the rest of the shared record
    as it was, and set the parameters: 14 poles, the limit period of the
    driver, the RPM ceiling that [comm_period_to_rpm] gives for that
    period, and an RPM floor of 500. *)
Theorem init_success :
  forall (e : init_env) (y y' : sys),
    motorctl_init e y = Ok (0, y')
    <-> env_motor_init e = 0
        /\ env_limit_comm_period e <> 0
        /\ voltage_in_band (env_voltage e)
        /\ sys_worker y' = Some {| timestamp_hnsec := env_timer e |}
        /\ sys_sync_init y' = true
        /\ sys_state y'
           = set_input (env_voltage e) (env_current e) (sys_state y)
        /\ configure (env_limit_comm_period e) (sys_params y)
           = Ok (sys_params y')
        /\ poles (sys_params y') = 14
        /\ comm_period_limit (sys_params y') = env_limit_comm_period e
        /\ comm_period_to_rpm (sys_params y') (env_limit_comm_period e)
           = Ok (rpm_max (sys_params y'))
        /\ rpm_min (sys_params y') = 500.
Proof.
  intros e y y'. unfold motorctl_init, voltage_in_band.
  cbn [init_filters set_input input_voltage].
  destruct (Z.eqb_spec (env_motor_init e) 0) as [H0 | H0]; cbn [negb].
  2: { split.
       - intros H. injection H as H _. contradiction.
       - intros (H & _). contradiction. }
  destruct (Z.eq_dec (env_limit_comm_period e) 0) as [Hl | Hl].
  { rewrite Hl, configure_zero. cbn [bind]. split.
    - discriminate.
    - intros (_ & H & _). contradiction. }
  destruct (configure_defined _ (sys_params y) Hl) as (p' & Hp' & Hmax).
  rewrite Hp'. cbn [bind].
  assert (Hcfg : poles p' = 14
                 /\ comm_period_limit p' = env_limit_comm_period e
                 /\ rpm_min p' = 500).
  { unfold configure in Hp'.
    destruct (comm_period_to_rpm _ _); cbn [bind] in Hp'; [|discriminate].
    injection Hp' as <-. repeat split. }
  destruct Hcfg as (Hpoles & Hlim & Hmin).
  assert (Hrpm : comm_period_to_rpm p' (env_limit_comm_period e)
                 = Ok (rpm_max p')).
  { rewrite comm_period_to_rpm_defined, Hpoles, Hmax;
      [reflexivity | | | assumption]; rewrite Hpoles;
      vm_compute; reflexivity || discriminate. }
  destruct (flt (env_voltage e) MIN_VALID_INPUT_VOLTAGE) eqn:Elo; cbn [orb].
  { split.
    - discriminate.
    - intros (_ & _ & (H & _) & _). discriminate H. }
  destruct (fgt (env_voltage e) MAX_VALID_INPUT_VOLTAGE) eqn:Ehi.
  { split.
    - discriminate.
    - intros (_ & _ & (_ & H) & _). discriminate H. }
  split.
  - intros H. injection H as <-. cbn [sys_worker sys_sync_init sys_state sys_params].
    repeat split; assumption.
  - intros (_ & _ & _ & Hw & Hs & Hst & Hc & _).
    injection Hc as Hc.
    destruct y' as [py sy syn wy]. cbn in *. subst. reflexivity.
Qed.

(** X16.  When [motor_init] succeeds and the driver reports a limit
    period of 0, [motorctl_init] divides by zero in [configure],
    whatever the seeded voltage: it returns no status. *)
Theorem init_divides_by_limit_period :
  forall (e : init_env) (y : sys),
    env_motor_init e = 0 ->
    env_limit_comm_period e = 0 ->
    motorctl_init e y = Fault DivisionByZero.
Proof.
  intros e y H0 Hl. unfold motorctl_init.
  rewrite H0, Hl, configure_zero. reflexivity.
Qed.

Lemma init_divides_by_limit_period_witness :
  motorctl_init
    {| env_motor_init := 0; env_limit_comm_period := 0;
       env_voltage := FNum 12; env_current := FNum 0; env_timer := 0 |} boot
  = Fault DivisionByZero.
Proof.
  apply (init_divides_by_limit_period
           {| env_motor_init := 0; env_limit_comm_period := 0;
              env_voltage := FNum 12; env_current := FNum 0; env_timer := 0 |}
           boot); reflexivity.
Defined.

(** ** The limit mask holds the two flags only *)

Lemma mask_ok_cases (m : Z) : mask_ok m -> m = 0 \/ m = 1 \/ m = 2 \/ m = 3.
Proof. unfold mask_ok. lia. Qed.

Lemma mask_ok_flag_ops (m : Z) :
  mask_ok m ->
  mask_ok (Z.lor m MOTORCTL_LIMIT_RPM)
  /\ mask_ok (Z.land m (Z.lnot MOTORCTL_LIMIT_RPM))
  /\ mask_ok (Z.lor m MOTORCTL_LIMIT_ACCEL)
  /\ mask_ok (Z.land m (Z.lnot MOTORCTL_LIMIT_ACCEL)).
Proof.
  intros H. destruct (mask_ok_cases m H) as [-> | [-> | [-> | ->]]];
    unfold mask_ok, MOTORCTL_LIMIT_RPM, MOTORCTL_LIMIT_ACCEL; cbn; lia.
Qed.

Lemma primary_control_mask_ok (p : params) (dt : cfloat) (d : driver)
    (s : state) :
  mask_ok (limit_mask s) ->
  mask_ok (limit_mask (fst (primary_control p dt d s))).
Proof.
  intros H. destruct (mask_ok_flag_ops _ H) as (Hset & Hclr & _).
  unfold primary_control, update_control_open_loop.
  destruct (mode s); [|exact H].
  destruct (drv_comm_period d =? 0); [exact H|].
  destruct (drv_comm_period d <? comm_period_limit p).
  - destruct (flt _ _); [exact Hset|].
    rewrite open_loop_setpoint_fields. exact Hclr.
  - rewrite open_loop_setpoint_fields. exact Hclr.
Qed.

Lemma slope_control_mask_ok (p : params) (dt c : cfloat) (s : state) :
  mask_ok (limit_mask s) ->
  mask_ok (limit_mask (fst (slope_control p dt c s))).
Proof.
  intros H. destruct (mask_ok_flag_ops _ H) as (_ & _ & Hset & Hclr).
  unfold slope_control. destruct (fgt _ _); assumption.
Qed.

Lemma tick_mask_ok (p : params) (now : Z) (d : driver) (w : worker)
    (s : state) :
  mask_ok (limit_mask s) ->
  mask_ok (limit_mask (snd (fst (control_thread_step p now d w s)))).
Proof.
  intros H.
  assert (H0 : mask_ok 0) by (unfold mask_ok; lia).
  destruct (drv_state d) eqn:Hd.
  1, 2: rewrite tick_not_running by (rewrite Hd; discriminate);
    rewrite update_control_non_running_mask;
    destruct (drv_state_again d); assumption.
  unfold control_thread_step, update_control. rewrite Hd.
  pose proof (primary_control_mask_ok p (elapsed now w) d
                (update_filters p (elapsed now w) d s) H) as H1.
  destruct (primary_control _ _ _ _) as [s1 c]. cbn [fst] in H1.
  destruct (isfinite c); cbn [negb].
  - pose proof (slope_control_mask_ok p (elapsed now w) c s1 H1) as H2.
    now destruct (slope_control _ _ _ _).
  - exact H0.
Qed.

Lemma step_mask_ok (o : op) (y : sys) :
  mask_ok (limit_mask (sys_state y)) ->
  mask_ok (limit_mask (sys_state (fst (step o y)))).
Proof.
  intros H. destruct o as [now d | dc | rpm |]; cbn [step].
  - destruct (sys_worker y) as [w|]; [|exact H].
    pose proof (tick_mask_ok (sys_params y) now d w (sys_state y) H) as H1.
    now destruct (control_thread_step _ _ _ _ _) as [[w1 s1] c].
  - exact H.
  - cbn [fst with_state sys_state]. rewrite set_rpm_fields. exact H.
  - unfold mask_ok. cbn. lia.
Qed.

(** X17.  The limit mask never holds a bit besides the RPM flag and the
    acceleration flag: from a mask within 0..3, as the zeroed record has
    it, every sequence of ticks, setter calls and stops leaves a mask
    within 0..3. *)
Theorem limit_mask_holds_two_flags :
  forall (ops : list op) (y : sys),
    mask_ok (limit_mask (sys_state y)) ->
    mask_ok (limit_mask (sys_state (fst (run ops y)))).
Proof.
  induction ops as [|o rest IH]; intros y H; [exact H|].
  cbn [run].
  pose proof (step_mask_ok o y H) as H1.
  destruct (step o y) as [y1 c1]. cbn [fst] in H1.
  specialize (IH y1 H1). now destruct (run rest y1).
Qed.

Lemma limit_mask_holds_two_flags_witness :
  mask_ok
    (limit_mask
       (sys_state
          (fst (run [OpSetDutyCycle (FNum (1 # 2));
                     OpTick 10000 (running_driver 100);
                     OpTick 20000 (running_driver 2000)] started)))).
Proof.
  apply (limit_mask_holds_two_flags
           [OpSetDutyCycle (FNum (1 # 2));
            OpTick 10000 (running_driver 100);
            OpTick 20000 (running_driver 2000)] started).
  split; discriminate.
Defined.

(** ** How the setters compose *)

Lemma clamp01_stays (dc : cfloat) :
  flt (clamp01 dc) (FNum 0) = false /\ fgt (clamp01 dc) (FNum 1) = false.
Proof.
  unfold clamp01.
  destruct (flt dc (FNum 0)) eqn:E0; [split; reflexivity|].
  destruct (fgt dc (FNum 1)) eqn:E1; [split; reflexivity|].
  now split.
Qed.

Lemma clamp01_idempotent (dc : cfloat) : clamp01 (clamp01 dc) = clamp01 dc.
Proof.
  destruct (clamp01_stays dc) as [H0 H1].
  unfold clamp01 at 1. now rewrite H0, H1.
Qed.

(** X18.  Commanding again the setpoint that a setter has stored changes
    nothing.  The two setters keep each other's setpoint: called one
    after the other in either order they leave the same record but for
    the mode, which is that of the last call. *)
Theorem setters_compose :
  forall (p : params) (s : state) (dc : cfloat) (rpm : Z),
    motorctl_set_duty_cycle
      (dc_openloop_setpoint (motorctl_set_duty_cycle dc s))
      (motorctl_set_duty_cycle dc s)
    = motorctl_set_duty_cycle dc s
    /\ motorctl_set_rpm p (rpm_setpoint (motorctl_set_rpm p rpm s))
         (motorctl_set_rpm p rpm s)
       = motorctl_set_rpm p rpm s
    /\ motorctl_set_rpm p rpm (motorctl_set_duty_cycle dc s)
       = set_mode MOTORCTL_MODE_RPM
           (motorctl_set_duty_cycle dc (motorctl_set_rpm p rpm s))
    /\ motorctl_get_mode (motorctl_set_rpm p rpm (motorctl_set_duty_cycle dc s))
       = MOTORCTL_MODE_RPM
    /\ motorctl_get_mode (motorctl_set_duty_cycle dc (motorctl_set_rpm p rpm s))
       = MOTORCTL_MODE_OPENLOOP.
Proof.
  intros p s dc rpm. split; [|split; [|split; [|split]]].
  - rewrite !set_duty_cycle_fields. cbn [dc_openloop_setpoint limit_mask
      dc_actual rpm_setpoint input_voltage input_current].
    now rewrite clamp01_idempotent.
  - rewrite !set_rpm_fields. cbn [dc_openloop_setpoint limit_mask
      dc_actual rpm_setpoint input_voltage input_current].
    f_equal. lia.
  - rewrite !set_rpm_fields, !set_duty_cycle_fields. reflexivity.
  - rewrite set_rpm_fields. reflexivity.
  - reflexivity.
Qed.

(** ** The RPM mode from start to stop *)

Lemma rpm_mode_no_output (p : params) (dt : cfloat) (d : driver) (s : state) :
  mode s = MOTORCTL_MODE_RPM ->
  isfinite (snd (primary_control p dt d s)) = false.
Proof.
  intros H. unfold primary_control. rewrite H. reflexivity.
Qed.

(** X19.  The RPM mode through three ticks.  After [motorctl_set_rpm]
    with an RPM that reaches the floor, itself above 0 and within the
    ceiling, the tick that finds the motor idle starts it; the tick that
    finds it running stops it and resets the RPM setpoint; and the tick
    after that, on a motor that is not running, sends nothing.  The
    driver gets a start and a stop, and nothing else. *)
Theorem rpm_mode_starts_then_stops :
  forall (y : sys) (w : worker) (rpm t1 t2 t3 : Z) (d1 d2 d3 : driver),
    sys_worker y = Some w ->
    0 < rpm_min (sys_params y) ->
    rpm_min (sys_params y) <= Z.min rpm (rpm_max (sys_params y)) ->
    drv_state d1 <> MOTOR_STATE_RUNNING ->
    drv_state_again d1 <> MOTOR_STATE_STARTING ->
    drv_state d2 = MOTOR_STATE_RUNNING ->
    drv_state d3 <> MOTOR_STATE_RUNNING ->
    exists dc : cfloat,
      snd (run [OpSetRpm rpm; OpTick t1 d1; OpTick t2 d2; OpTick t3 d3] y)
      = [MotorStart dc dc (reverse (sys_params y)); MotorStop]
      /\ rpm_setpoint
           (sys_state
              (fst (run [OpSetRpm rpm; OpTick t1 d1; OpTick t2 d2;
                         OpTick t3 d3] y))) = 0
      /\ mode
           (sys_state
              (fst (run [OpSetRpm rpm; OpTick t1 d1; OpTick t2 d2;
                         OpTick t3 d3] y))) = MOTORCTL_MODE_RPM.
Proof.
  intros y w rpm t1 t2 t3 d1 d2 d3 Hw Hmin Hreach Hd1 Hd1' Hd2 Hd3.
  cbn [run step with_state sys_worker sys_params sys_state fst snd app].
  rewrite Hw.
  rewrite (tick_idle (sys_params y) t1 d1 w _ Hd1 Hd1').
  rewrite set_rpm_fields.
  cbn [mode mode_eqb andb orb rpm_setpoint sys_worker sys_params sys_state].
  destruct (Z.leb_spec (rpm_min (sys_params y))
              (Z.min rpm (rpm_max (sys_params y)))) as [_ | Hlt]; [|lia].
  rewrite (tick_without_output (sys_params y) t2 d2 _ _ Hd2)
    by (apply rpm_mode_no_output; reflexivity).
  cbn [mode sys_worker sys_params sys_state].
  assert (Hstart : drv_state_again d3 = MOTOR_STATE_STARTING
                   \/ drv_state_again d3 <> MOTOR_STATE_STARTING).
  { destruct (drv_state_again d3);
      (left; reflexivity) || (right; discriminate). }
  destruct Hstart as [Hst | Hns].
  - rewrite (tick_starting (sys_params y) t3 d3 _ _ Hd3 Hst).
    eexists. cbn. repeat split.
  - rewrite (tick_idle (sys_params y) t3 d3 _ _ Hd3 Hns).
    cbn [mode mode_eqb andb orb rpm_setpoint].
    destruct (Z.leb_spec (rpm_min (sys_params y)) 0); [lia|].
    eexists. cbn. repeat split.
Qed.

Lemma rpm_mode_starts_then_stops_witness :
  exists dc : cfloat,
    snd (run [OpSetRpm 3000; OpTick 10000 idle_driver;
              OpTick 20000 (running_driver 2000);
              OpTick 30000 idle_driver] started)
    = [MotorStart dc dc false; MotorStop].
Proof.
  destruct (rpm_mode_starts_then_stops started {| timestamp_hnsec := 0 |}
              3000 10000 20000 30000 idle_driver (running_driver 2000)
              idle_driver)
    as (dc & Hcmds & _); try reflexivity; try discriminate.
  exists dc. exact Hcmds.
Defined.
